(** * Verification of the sandboxed code executor and the collaboration
      room registry (docker-executor.ts)

    The development embeds the two classes of the source file:
    - [DockerExecutor]: workspace creation, source materialisation, command
      composition, supervised execution and cleanup;
    - [WebSocketService]: the four tables that track users and rooms.

    Effects are explicit.  The host (file system, console, launched shell
    commands) is a record threaded through a small state-and-exception monad;
    everything the program cannot decide itself (the identifier returned by
    [uuidv4], whether a file-system call rejects, what the launched process
    does, the clock) is read from an environment record. *)

From Stdlib Require Import ZArith Ascii String.
From stdpp Require Import gmap strings list fin_maps.

Local Open Scope Z_scope.

(** ** JavaScript primitives used by the source *)

Module JS.

(** The line feed written as a backslash-n escape in the source. *)
Definition LF : string := String "010"%char "".

(** [a || b] where [a] is a string or [undefined]: the empty string and
    [undefined] are the falsy cases. *)
Definition or_else (a : option string) (b : string) : string :=
  match a with
  | Some s => if decide (s = "") then b else s
  | None => b
  end.

(** [a || b] where [a] is a number or [undefined]: [0] and [undefined] are
    falsy.  Numbers are whole numbers here; [NaN], which is falsy too, and
    fractions are not represented. *)
Definition or_elseZ (a : option Z) (b : Z) : Z :=
  match a with
  | Some n => if decide (n = 0) then b else n
  | None => b
  end.

(** Truthiness of an optional boolean ([undefined] is falsy). *)
Definition truthy (a : option bool) : bool :=
  match a with Some true => true | _ => false end.

(** Own properties of an object literal, in source order. *)
Fixpoint assoc (k : string) (l : list (string * string)) : option string :=
  match l with
  | [] => None
  | (k', v) :: l' => if decide (k = k') then Some v else assoc k l'
  end.

(** The string-keyed properties every object literal inherits from
    [Object.prototype].  Each is a function (or, for [__proto__], the
    prototype object itself): truthy, and recorded here by the text a
    template literal renders it as. *)
Definition native (name : string) : string :=
  "function " +:+ name +:+ "() { [native code] }".

Definition Object_prototype : list (string * string) :=
  [ ("constructor", native "Object");
    ("__defineGetter__", native "__defineGetter__");
    ("__defineSetter__", native "__defineSetter__");
    ("hasOwnProperty", native "hasOwnProperty");
    ("__lookupGetter__", native "__lookupGetter__");
    ("__lookupSetter__", native "__lookupSetter__");
    ("isPrototypeOf", native "isPrototypeOf");
    ("propertyIsEnumerable", native "propertyIsEnumerable");
    ("toString", native "toString");
    ("valueOf", native "valueOf");
    ("__proto__", "[object Object]");
    ("toLocaleString", native "toLocaleString") ].

(** The property read [obj[k]] on an object literal [obj]: own properties
    first, then the prototype; [None] is [undefined]. *)
Definition get (obj : list (string * string)) (k : string) : option string :=
  match assoc k obj with
  | Some v => Some v
  | None => assoc k Object_prototype
  end.

(** [String.prototype.startsWith]. *)
Fixpoint starts_with (needle hay : string) : bool :=
  match needle with
  | EmptyString => true
  | String a needle' =>
      match hay with
      | EmptyString => false
      | String b hay' => bool_decide (a = b) && starts_with needle' hay'
      end
  end.

(** [String.prototype.includes]. *)
Fixpoint includes (needle hay : string) : bool :=
  starts_with needle hay ||
  match hay with
  | EmptyString => false
  | String _ hay' => includes needle hay'
  end.

End JS.

(** ** Vocabulary for statements about text *)

Module Text.

(** Whether a character occurs in a string. *)
Fixpoint has_char (c : ascii) (s : string) : bool :=
  match s with
  | EmptyString => false
  | String a s' => bool_decide (a = c) || has_char c s'
  end.

(** Pieces written one after the other with [c] between them. *)
Fixpoint interleave (c : ascii) (pieces : list string) : string :=
  match pieces with
  | [] => ""
  | [p] => p
  | p :: ps => p +:+ String c (interleave c ps)
  end.

End Text.

(** ** POSIX [path] functions *)

Module Path.

(** [path.join(a, b)].  Node joins the segments with a slash and then
    normalises the result; the segments joined by the source (the fixed
    scratch root, a UUID, [code.<ext>]) contain nothing to normalise, so the
    join is the concatenation. *)
Definition join (a b : string) : string := a +:+ "/" +:+ b.

(** The segments of a path between occurrences of [c]. *)
Fixpoint split_on (c : ascii) (s : string) : list string :=
  match s with
  | EmptyString => [""]
  | String a s' =>
      if decide (a = c) then "" :: split_on c s'
      else match split_on c s' with
           | x :: xs => String a x :: xs
           | [] => [String a ""]
           end
  end.

(** [path.basename(p)]: the last non-empty segment, or the empty string. *)
Definition basename (p : string) : string :=
  List.last (List.filter (fun x => negb (bool_decide (x = ""))) (split_on "/" p)) "".



End Path.

(** ** The executor *)

Module DockerExecutor.
Import JS.

Inductive JsCode :=
| CNull
| CNum (n : Z)
| CStr (s : string).

(** [interface ExecutionResult]; [memoryUsage] is optional and never set.
    [exitCode] holds whatever [error.code || 1] evaluates to. *)
Record ExecutionResult := {
  stdout : string;
  stderr : string;
  exitCode : JsCode;
  executionTime : Z
}.

(** [interface ExecutionOptions]. *)
Record ExecutionOptions := {
  timeout : option Z;
  memoryLimit : option string;
  networkDisabled : option bool;
  language : string
}.

Definition TEMP_DIR : string := "/tmp/code-execution".
Definition DEFAULT_TIMEOUT : Z := 10000.
Definition DEFAULT_MEMORY : string := "256m".

Definition LANGUAGE_IMAGES : list (string * string) :=
  [ ("javascript", "node:18-alpine");
    ("typescript", "node:18-alpine");
    ("python", "python:3.10-alpine");
    ("java", "openjdk:17-alpine");
    ("go", "golang:1.19-alpine");
    ("rust", "rust:1.67-alpine");
    ("ruby", "ruby:3.2-alpine");
    ("php", "php:8.2-alpine");
    ("csharp", "mcr.microsoft.com/dotnet/sdk:7.0-alpine") ].

Definition LANGUAGE_EXTENSIONS : list (string * string) :=
  [ ("javascript", "js");
    ("typescript", "ts");
    ("python", "py");
    ("java", "java");
    ("go", "go");
    ("rust", "rs");
    ("ruby", "rb");
    ("php", "php");
    ("csharp", "cs") ].

Definition EXECUTION_COMMANDS : list (string * string) :=
  [ ("javascript", "node");
    ("typescript", "ts-node");
    ("python", "python");
    ("java", "java");
    ("go", "go run");
    ("rust", "rustc -o /tmp/output && /tmp/output");
    ("ruby", "ruby");
    ("php", "php");
    ("csharp", "dotnet run") ].

(** The file name chosen by [writeCodeToFile]. *)
Definition codeFilename (language : string) : string :=
  let extension := or_else (get LANGUAGE_EXTENSIONS language) "txt" in
  "code." +:+ extension.

Definition getDockerCommand (filePath dirPath language : string)
    (options : ExecutionOptions) : string :=
  let image := or_else (get LANGUAGE_IMAGES language) "alpine:latest" in
  let command := or_else (get EXECUTION_COMMANDS language) "sh" in
  let filename := Path.basename filePath in
  let memoryLimit := or_else (memoryLimit options) DEFAULT_MEMORY in
  let networkFlag :=
    if truthy (networkDisabled options) then "--network=none" else "" in
  "docker run --rm " +:+ networkFlag +:+ " -m " +:+ memoryLimit +:+
  " -v " +:+ dirPath +:+ ":/code -w /code " +:+ image +:+ " " +:+ command +:+
  " " +:+ filename.

(** *** Errors, the host and the environment *)

(** The fields of a thrown error object that the source reads, plus the
    [killed] and [signal] fields Node sets on a failed [exec]. *)
Record JsError := {
  e_message : string;
  e_code : JsCode;
  e_stdout : option string;
  e_stderr : option string;
  e_killed : bool;
  e_signal : option string
}.

(** How the promise returned by [execPromise] settles. *)
Inductive ExecOutcome :=
| Resolved (out err : string)
| Rejected (e : JsError).

(** Calls that leave the process, oldest first. *)
Inductive Event :=
| Mkdir (p : string)
| WriteFile (p content : string)
| Exec (cmd : string) (timeoutMs : Z)
| Rm (p : string)
| ConsoleError (msg : string).

(** The host: the directories and files that exist, and the calls made so
    far.  Of the directories only the ones named in a call are tracked, not
    the ancestors a recursive creation adds or the sub-directories a
    recursive removal takes along. *)
Record Host := {
  dirs : gset string;
  files : gmap string string;
  events : list Event
}.

(** What the program reads from outside during one [executeCode] call. *)
Record Env := {
  uuidv4 : string;
  fs_mkdir_error : string -> option JsError;
  fs_writeFile_error : string -> string -> option JsError;
  fs_rm_error : string -> option JsError;
  child_process_exec : string -> Z -> ExecOutcome;
  clock_at_launch : Z;
  clock_at_settle : Z
}.

(** *** A state-and-exception monad for [async] methods *)

Inductive Completion (A : Type) :=
| Returned (a : A)
| Thrown (e : JsError).
Arguments Returned {A} a.
Arguments Thrown {A} e.

Definition M (A : Type) : Type := Host -> Completion A * Host.

Definition ret {A} (a : A) : M A := fun h => (Returned a, h).

Definition bind {A B} (m : M A) (k : A -> M B) : M B := fun h =>
  match m h with
  | (Returned a, h') => k a h'
  | (Thrown e, h') => (Thrown e, h')
  end.

(** [try { body } catch (error) { handler }]. *)
Definition try_catch {A} (body : M A) (handler : JsError -> M A) : M A := fun h =>
  match body h with
  | (Returned a, h') => (Returned a, h')
  | (Thrown e, h') => handler e h'
  end.

(** [try { body } finally { fin }]: [fin] runs on both completions of
    [body], and a throw from [fin] replaces the completion of [body]. *)
Definition try_finally {A} (body : M A) (fin : M unit) : M A := fun h =>
  match body h with
  | (c, h') =>
      match fin h' with
      | (Returned _, h'') => (c, h'')
      | (Thrown e, h'') => (Thrown e, h'')
      end
  end.

Notation "'await' x <- m ; k" := (bind m (fun x => k))
  (at level 10, x name, m at level 100, k at level 200).

(** Host updates. *)
Definition emit (ev : Event) (h : Host) : Host :=
  {| dirs := dirs h; files := files h; events := events h ++ [ev] |}.

Definition addDir (p : string) (h : Host) : Host :=
  {| dirs := {[p]} ∪ dirs h; files := files h; events := events h |}.

Definition putFile (p content : string) (h : Host) : Host :=
  {| dirs := dirs h; files := <[p := content]> (files h); events := events h |}.

(** A path strictly below directory [p]. *)
Definition below (p k : string) : bool := JS.starts_with (p +:+ "/") k.

Definition removeTree (p : string) (h : Host) : Host :=
  {| dirs := dirs h ∖ {[p]};
     files := filter (fun kv => below p kv.1 = false) (files h);
     events := events h |}.

(** [fs.mkdir(p, { recursive: true })]. *)
Definition fs_mkdir (env : Env) (p : string) : M unit := fun h =>
  let h := emit (Mkdir p) h in
  match fs_mkdir_error env p with
  | Some e => (Thrown e, h)
  | None => (Returned tt, addDir p h)
  end.

(** [fs.writeFile(p, content)].  A rejected write is taken to leave no
    file. *)
Definition fs_writeFile (env : Env) (p content : string) : M unit := fun h =>
  let h := emit (WriteFile p content) h in
  match fs_writeFile_error env p content with
  | Some e => (Thrown e, h)
  | None => (Returned tt, putFile p content h)
  end.

(** [fs.rm(p, { recursive: true, force: true })]: with [force] a missing
    [p] is not an error, so success does not depend on [p] existing. *)
Definition fs_rm (env : Env) (p : string) : M unit := fun h =>
  let h := emit (Rm p) h in
  match fs_rm_error env p with
  | Some e => (Thrown e, h)
  | None => (Returned tt, removeTree p h)
  end.

(** [console.error(msg)]. *)
Definition console_error (msg : string) : M unit := fun h =>
  (Returned tt, emit (ConsoleError msg) h).

(** [execPromise(cmd, { timeout })].  The launch is recorded and settles as
    the environment says; what the launched command does to the files of
    the host is outside this record. *)
Definition execPromise (env : Env) (cmd : string) (timeoutMs : Z) : M (string * string) := fun h =>
  let h := emit (Exec cmd timeoutMs) h in
  match child_process_exec env cmd timeoutMs with
  | Resolved out err => (Returned (out, err), h)
  | Rejected e => (Thrown e, h)
  end.

(** *** The methods *)

Definition createTempDir (env : Env) (sessionId : string) : M string :=
  let dirPath := Path.join TEMP_DIR sessionId in
  await _u <- fs_mkdir env dirPath ;
  ret dirPath.

Definition writeCodeToFile (env : Env) (code dirPath language : string) : M string :=
  let extension := or_else (get LANGUAGE_EXTENSIONS language) "txt" in
  let filename := "code." +:+ extension in
  let filePath := Path.join dirPath filename in
  await _u <- fs_writeFile env filePath code ;
  ret filePath.

Definition cleanupTempDir (env : Env) (dirPath : string) : M unit :=
  try_catch (fs_rm env dirPath)
    (fun error =>
       console_error ("Error cleaning up temp directory: " +:+ e_message error)).

(** [error.code || 1]. *)
Definition code_or_1 (c : JsCode) : JsCode :=
  match c with
  | CNull => CNum 1
  | CNum n => if decide (n = 0) then CNum 1 else CNum n
  | CStr s => if decide (s = "") then CNum 1 else CStr s
  end.

(** The object built in the [catch] block. *)
Definition failureResult (error : JsError) (elapsed : Z) : ExecutionResult :=
  {| stdout := or_else (e_stdout error) "";
     stderr := or_else (e_stderr error) (e_message error);
     exitCode := code_or_1 (e_code error);
     executionTime := elapsed |}.

Definition executeCode (env : Env) (code : string) (options : ExecutionOptions)
    : M ExecutionResult :=
  let sessionId := uuidv4 env in
  await dirPath <- createTempDir env sessionId ;
  await filePath <- writeCodeToFile env code dirPath (language options) ;
  let dockerCommand := getDockerCommand filePath dirPath (language options) options in
  let timeout := or_elseZ (timeout options) DEFAULT_TIMEOUT in
  let startTime := clock_at_launch env in
  await result <-
    try_finally
      (try_catch
         (await so <- execPromise env dockerCommand timeout ;
          let endTime := clock_at_settle env in
          ret {| stdout := so.1; stderr := so.2; exitCode := CNum 0;
                 executionTime := endTime - startTime |})
         (fun error =>
            let endTime := clock_at_settle env in
            ret (failureResult error (endTime - startTime))))
      (cleanupTempDir env dirPath) ;
  ret result.

(** *** How Node's [child_process.exec] reports the end of the child *)

(** The error [exec] rejects with when the child did not exit with status
    zero: the message is [Command failed: <cmd>], a line feed, and the
    captured error stream; the captured streams are attached. *)
Definition command_failed (cmd out err : string) (code : JsCode)
    (killed : bool) (signal : option string) : JsError :=
  {| e_message := "Command failed: " +:+ cmd +:+ LF +:+ err;
     e_code := code;
     e_stdout := Some out;
     e_stderr := Some err;
     e_killed := killed;
     e_signal := signal |}.

Inductive ProcessEnd :=
| Exited (status : Z)           (* the child exited by itself *)
| DeadlineElapsed               (* the [timeout] timer fired and killed it *)
| Signalled (signal : string).  (* something else killed it *)

Definition exec_report (cmd out err : string) (pe : ProcessEnd) : ExecOutcome :=
  match pe with
  | Exited status =>
      if decide (status = 0) then Resolved out err
      else Rejected (command_failed cmd out err (CNum status) false None)
  | DeadlineElapsed =>
      Rejected (command_failed cmd out err CNull true (Some "SIGTERM"))
  | Signalled signal =>
      Rejected (command_failed cmd out err CNull false (Some signal))
  end.

(** [exec_report] is the report for a child whose output stayed within
    [maxBuffer].  Line 124 passes no [maxBuffer], so Node's default of
    1 MiB per stream applies: once a stream passes it, Node keeps the first
    [maxBuffer] bytes, stops reading both streams, kills the child, and
    rejects with a [RangeError] whose code is
    [ERR_CHILD_PROCESS_STDIO_MAXBUFFER], whatever the child's own exit
    status. *)
Definition MAX_BUFFER : Z := 1024 * 1024.

(** [Buffer.byteLength(s)]; a string here is a sequence of bytes. *)
Fixpoint byteLength_from (acc : Z) (s : string) : Z :=
  match s with
  | EmptyString => acc
  | String _ s' => byteLength_from (acc + 1) s'
  end.

Definition byteLength (s : string) : Z := byteLength_from 0 s.

(** [s.slice(0, limit)]. *)
Fixpoint clip (limit : Z) (s : string) : string :=
  match s with
  | EmptyString => EmptyString
  | String c s' => if decide (0 < limit) then String c (clip (limit - 1) s') else EmptyString
  end.

Definition maxBuffer_exceeded (stream out err : string) : JsError :=
  {| e_message := stream +:+ " maxBuffer length exceeded";
     e_code := CStr "ERR_CHILD_PROCESS_STDIO_MAXBUFFER";
     e_stdout := Some out;
     e_stderr := Some err;
     e_killed := false;
     e_signal := None |}.

(** What [exec] settles with for a child that wrote [out] and [err] until
    it ended as [pe].  (Should both streams pass the limit, the one Node
    read past it first decides; [stdout] is taken here.) *)
Definition exec_capture (cmd out err : string) (pe : ProcessEnd) : ExecOutcome :=
  if decide (MAX_BUFFER < byteLength out) then
    Rejected (maxBuffer_exceeded "stdout" (clip MAX_BUFFER out) (clip MAX_BUFFER err))
  else if decide (MAX_BUFFER < byteLength err) then
    Rejected (maxBuffer_exceeded "stderr" out (clip MAX_BUFFER err))
  else exec_report cmd out err pe.

(** A deadline kill as the host sees it: Node arms the timer for
    [timeoutMs] when it launches the child, kills the child when the timer
    fires, and the promise is rejected [lag] milliseconds after that (the
    time the child and its streams take to go away).  The launch clock is
    read just before the launch, the settle clock just after the
    rejection. *)
Definition deadline_kill (env : Env) (cmd : string) (timeoutMs : Z)
    (out err : string) (lag : Z) : Prop :=
  child_process_exec env cmd timeoutMs = exec_report cmd out err DeadlineElapsed ∧
  0 <= lag ∧
  clock_at_settle env = clock_at_launch env + timeoutMs + lag.

(** *** Derived notions used by the statements *)

(** The workspace of a call and the command it composes; neither takes the
    submitted code. *)
Definition workspaceOf (env : Env) : string := Path.join TEMP_DIR (uuidv4 env).

Definition sourcePathOf (env : Env) (options : ExecutionOptions) : string :=
  Path.join (workspaceOf env) (codeFilename (language options)).

Definition commandOf (env : Env) (options : ExecutionOptions) : string :=
  getDockerCommand (sourcePathOf env options) (workspaceOf env)
    (language options) options.

Definition timeoutOf (options : ExecutionOptions) : Z :=
  or_elseZ (timeout options) DEFAULT_TIMEOUT.

(** The result the [try]/[catch] of a call computes, before cleanup. *)
Definition settled (env : Env) (options : ExecutionOptions) : ExecutionResult :=
  let elapsed := clock_at_settle env - clock_at_launch env in
  match child_process_exec env (commandOf env options) (timeoutOf options) with
  | Resolved out err =>
      {| stdout := out; stderr := err; exitCode := CNum 0; executionTime := elapsed |}
  | Rejected error => failureResult error elapsed
  end.

(** The host when the [finally] block is entered. *)
Definition beforeCleanup (env : Env) (code : string) (options : ExecutionOptions)
    (h : Host) : Host :=
  let ws := workspaceOf env in
  let src := sourcePathOf env options in
  emit (Exec (commandOf env options) (timeoutOf options))
    (putFile src code (emit (WriteFile src code) (addDir ws (emit (Mkdir ws) h)))).

(** The host [cleanupTempDir] leaves. *)
Definition cleaned (env : Env) (p : string) (h : Host) : Host :=
  match fs_rm_error env p with
  | None => removeTree p (emit (Rm p) h)
  | Some error =>
      emit (ConsoleError ("Error cleaning up temp directory: " +:+ e_message error))
        (emit (Rm p) h)
  end.

(** The shell commands among a list of events. *)
Definition launched (evs : list Event) : list string :=
  omap (fun ev => match ev with Exec cmd _ => Some cmd | _ => None end) evs.

(** The shell commands one call launches on a host with no history. *)
Definition commandsRun (env : Env) (code : string) (options : ExecutionOptions)
    : list string :=
  launched (events (executeCode env code options
                      {| dirs := ∅; files := ∅; events := [] |}).2).

(** A host on which nothing exists and nothing has happened. *)
Definition pristine : Host := {| dirs := ∅; files := ∅; events := [] |}.

(** An environment in which every file-system call succeeds and the child
    ends as [pe] after writing [out] and [err]. *)
Definition quiet (uuid out err : string) (pe : ProcessEnd) (t0 t1 : Z) : Env :=
  {| uuidv4 := uuid;
     fs_mkdir_error := fun _ => None;
     fs_writeFile_error := fun _ _ => None;
     fs_rm_error := fun _ => None;
     child_process_exec := fun cmd _ => exec_report cmd out err pe;
     clock_at_launch := t0;
     clock_at_settle := t1 |}.

(** A file-system error object (no captured streams). *)
Definition fsError (code message : string) : JsError :=
  {| e_message := message; e_code := CStr code; e_stdout := None;
     e_stderr := None; e_killed := false; e_signal := None |}.

(** *** The availability probe *)

(** [checkDockerAvailability()].  [execPromise('docker --version')] is
    called without options, which for Node means a timeout of [0] (none);
    [console.error(a, b)] prints its arguments with a space between. *)
Definition checkDockerAvailability (env : Env) : M bool :=
  try_catch
    (await _so <- execPromise env "docker --version" 0 ;
     ret true)
    (fun error =>
       await _u <- console_error ("Docker is not available: " +:+ e_message error) ;
       ret false).

(** *** Scenarios *)

Definition session : string := "1b9d6bcd-bbfd-4b2d-9b5d-ab8dfbbd4bed".

Definition py : ExecutionOptions :=
  {| timeout := Some 1000; memoryLimit := None; networkDisabled := None;
     language := "python" |}.

(** Deleting the workspace is refused by the host. *)
Definition env_rm_busy : Env :=
  {| uuidv4 := session;
     fs_mkdir_error := fun _ => None;
     fs_writeFile_error := fun _ _ => None;
     fs_rm_error := fun _ => Some (fsError "EBUSY" "EBUSY: resource busy or locked");
     child_process_exec := fun cmd _ => exec_report cmd "1" "" (Exited 0);
     clock_at_launch := 0;
     clock_at_settle := 40 |}.

(** The disk is full when the source is written. *)
Definition env_disk_full : Env :=
  {| uuidv4 := session;
     fs_mkdir_error := fun _ => None;
     fs_writeFile_error := fun _ _ => Some (fsError "ENOSPC" "ENOSPC: no space left on device");
     fs_rm_error := fun _ => None;
     child_process_exec := fun cmd _ => exec_report cmd "1" "" (Exited 0);
     clock_at_launch := 0;
     clock_at_settle := 40 |}.

(** The program prints, then sleeps past the deadline. *)
Definition env_sleeper : Env := quiet session "tick" "late" DeadlineElapsed 0 1000.

(** The program prints the same and exits with status 1 by itself. *)
Definition env_exit1 : Env := quiet session "tick" "late" (Exited 1) 0 1000.

(** The program exits with status 2 and writes nothing. *)
Definition env_exit2 : Env := quiet session "" "" (Exited 2) 0 40.

(** A caller that leaves [networkDisabled] unset and writes a second
    flag into [memoryLimit]. *)
Definition smuggled : ExecutionOptions :=
  {| timeout := None; memoryLimit := Some "64m --network=none";
     networkDisabled := None; language := "python" |}.



(** The container runtime is not installed: the shell reports status 127. *)
Definition env_no_docker : Env :=
  quiet session "" "sh: docker: not found" (Exited 127) 0 5.

(** The deadline kill of [env_sleeper], reported 12 ms after the timer
    fired. *)
Definition env_sleeper_lagged : Env := quiet session "tick" "late" DeadlineElapsed 0 1012.

(** [2^k] copies of [s]. *)
Fixpoint doubled (k : nat) (s : string) : string :=
  match k with
  | O => s
  | S k' => doubled k' s +:+ doubled k' s
  end.

(** One byte more than [maxBuffer]. *)
Definition flood : string := String "x" (doubled 20 "x").

(** The program writes [flood] to its output and exits with status 0. *)
Definition env_flood : Env :=
  {| uuidv4 := session;
     fs_mkdir_error := fun _ => None;
     fs_writeFile_error := fun _ _ => None;
     fs_rm_error := fun _ => None;
     child_process_exec := fun cmd _ => exec_capture cmd flood "" (Exited 0);
     clock_at_launch := 0;
     clock_at_settle := 40 |}.

End DockerExecutor.

(** ** The collaboration registry *)

Module WebSocketService.

Record User := {
  id : string;
  username : string;
  room : string
}.

Record Message := {
  m_user : string;
  m_text : string;
  m_timestamp : Z
}.

(** [change] is an opaque editor object; it is carried as text. *)
Record CodeChange := {
  c_user : string;
  c_change : string;
  c_timestamp : Z
}.

(** The four [Map] fields of the service. *)
Record State := {
  users : gmap string User;
  rooms : gmap string (gset string);
  roomHistory : gmap string (list CodeChange);
  roomMessages : gmap string (list Message)
}.

Definition initial : State :=
  {| users := ∅; rooms := ∅; roomHistory := ∅; roomMessages := ∅ |}.

(** A handler either runs to its end or is left by a [TypeError] (a property
    read on [undefined]).  Nothing in the service catches it, so the process
    ends there; the state is the one mutated up to the throw. *)
Inductive Outcome :=
| Done (st : State)
| Crashed (st : State).

Definition stateOf (o : Outcome) : State :=
  match o with Done st | Crashed st => st end.

(** [Array.from(members).map(id => users.get(id)).map(user => ({ id:
    user.id, username: user.username }))]: [None] when some member has no
    entry in [users], which is where the second [map] throws. *)
Definition roomUsers (us : gmap string User) (members : gset string)
    : option (list (string * string)) :=
  mapM (fun i => (fun u => (id u, username u)) <$> us !! i) (elements members).

(** Socket emissions do not touch the tables and are left out. *)
Definition handleJoin (st : State) (socketId username room : string) : Outcome :=
  let user := {| id := socketId; username := username; room := room |} in
  let users1 := <[socketId := user]> (users st) in
  let st1 :=
    match rooms st !! room with
    | Some _ =>
        {| users := users1; rooms := rooms st;
           roomHistory := roomHistory st; roomMessages := roomMessages st |}
    | None =>
        {| users := users1;
           rooms := <[room := ∅]> (rooms st);
           roomHistory := <[room := []]> (roomHistory st);
           roomMessages := <[room := []]> (roomMessages st) |}
    end in
  match rooms st1 !! room with
  | None => Crashed st1
  | Some members =>
      let members := {[socketId]} ∪ members in
      let st2 :=
        {| users := users st1; rooms := <[room := members]> (rooms st1);
           roomHistory := roomHistory st1; roomMessages := roomMessages st1 |} in
      match roomUsers (users st2) members with
      | None => Crashed st2
      | Some _ => Done st2
      end
  end.

Definition handleCodeChange (st : State) (socketId change : string) (now : Z) : Outcome :=
  match users st !! socketId with
  | None => Done st
  | Some user =>
      let codeChange :=
        {| c_user := username user; c_change := change; c_timestamp := now |} in
      let history := default [] (roomHistory st !! room user) in
      let history := history ++ [codeChange] in
      Done {| users := users st; rooms := rooms st;
              roomHistory := <[room user := history]> (roomHistory st);
              roomMessages := roomMessages st |}
  end.

Definition handleMessage (st : State) (socketId text : string) (now : Z) : Outcome :=
  match users st !! socketId with
  | None => Done st
  | Some user =>
      let message :=
        {| m_user := username user; m_text := text; m_timestamp := now |} in
      let messages := default [] (roomMessages st !! room user) in
      let messages := messages ++ [message] in
      Done {| users := users st; rooms := rooms st;
              roomHistory := roomHistory st;
              roomMessages := <[room user := messages]> (roomMessages st) |}
  end.

Definition handleCursorUpdate (st : State) (socketId position : string) : Outcome :=
  match users st !! socketId with
  | None => Done st
  | Some _ => Done st
  end.

Definition handleDisconnect (st : State) (socketId : string) : Outcome :=
  match users st !! socketId with
  | None => Done st
  | Some user =>
      match rooms st !! room user with
      | Some members =>
          let members := members ∖ {[socketId]} in
          let rooms1 := <[room user := members]> (rooms st) in
          if decide (size members = 0%nat) then
            Done {| users := delete socketId (users st);
                    rooms := delete (room user) rooms1;
                    roomHistory := delete (room user) (roomHistory st);
                    roomMessages := delete (room user) (roomMessages st) |}
          else
            match roomUsers (users st) members with
            | None =>
                Crashed {| users := users st; rooms := rooms1;
                           roomHistory := roomHistory st;
                           roomMessages := roomMessages st |}
            | Some _ =>
                Done {| users := delete socketId (users st); rooms := rooms1;
                        roomHistory := roomHistory st;
                        roomMessages := roomMessages st |}
            end
      | None =>
          Done {| users := delete socketId (users st); rooms := rooms st;
                  roomHistory := roomHistory st; roomMessages := roomMessages st |}
      end
  end.

(** [createRoom()]; [roomId] is the value [uuidv4()] returned. *)
Definition createRoom (st : State) (roomId : string) : State * string :=
  ({| users := users st;
      rooms := <[roomId := ∅]> (rooms st);
      roomHistory := <[roomId := []]> (roomHistory st);
      roomMessages := <[roomId := []]> (roomMessages st) |}, roomId).

(** What can happen to the service: the five socket events and the public
    [createRoom]. *)
Inductive Event :=
| Join (socketId username room : string)
| CodeChanged (socketId change : string) (now : Z)
| SendMessage (socketId text : string) (now : Z)
| CursorUpdate (socketId position : string)
| Disconnect (socketId : string)
| CreateRoom (uuid : string).

Definition step (st : State) (ev : Event) : Outcome :=
  match ev with
  | Join s u r => handleJoin st s u r
  | CodeChanged s c now => handleCodeChange st s c now
  | SendMessage s t now => handleMessage st s t now
  | CursorUpdate s p => handleCursorUpdate st s p
  | Disconnect s => handleDisconnect st s
  | CreateRoom uuid => Done (createRoom st uuid).1
  end.

(** [uuidv4] returns an identifier that is not in use: a room created by
    [createRoom] is a new room. *)
Definition admissible (st : State) (ev : Event) : Prop :=
  match ev with
  | CreateRoom uuid => rooms st !! uuid = None
  | _ => True
  end.

(** The outcomes the service can reach from its initial state. *)
Inductive reachable : Outcome -> Prop :=
| reachable_initial : reachable (Done initial)
| reachable_step st ev :
    reachable (Done st) -> admissible st ev -> reachable (step st ev).

(** The three room-keyed tables have the same keys. *)
Definition keys_agree (st : State) : Prop :=
  dom (rooms st) = dom (roomHistory st) ∧ dom (rooms st) = dom (roomMessages st).

(** Every tracked user is a member of the room recorded for it. *)
Definition housed (us : gmap string User) (rs : gmap string (gset string)) : Prop :=
  ∀ sid u, us !! sid = Some u -> ∃ members, rs !! room u = Some members ∧ sid ∈ members.

Definition users_housed (st : State) : Prop := housed (users st) (rooms st).

Definition registry_inv (st : State) : Prop := keys_agree st ∧ users_housed st.

(** Handling a list of events in order, stopping at a crash. *)
Fixpoint run (st : State) (evs : list Event) : Outcome :=
  match evs with
  | [] => Done st
  | ev :: evs' =>
      match step st ev with
      | Done st' => run st' evs'
      | Crashed st' => Crashed st'
      end
  end.

(** Every event of a run is admissible where it is handled. *)
Fixpoint admissible_run (st : State) (evs : list Event) : Prop :=
  match evs with
  | [] => True
  | ev :: evs' =>
      admissible st ev ∧
      match step st ev with
      | Done st' => admissible_run st' evs'
      | Crashed _ => True
      end
  end.

(** *** Scenario: a socket joins two rooms and leaves; its identifier stays
    behind in the first room, and the next join there crashes. *)
Definition stale_member_trace : list Event :=
  [ Join "s1" "ann" "lab"; CodeChanged "s1" "x = 1" 10; CreateRoom "7c9e6679";
    Join "s1" "ann" "den"; Disconnect "s1"; Join "s2" "bob" "lab" ].

(** [getActiveRoomCount()] and [getActiveUserCount()]. *)
Definition getActiveRoomCount (st : State) : nat := size (rooms st).

Definition getActiveUserCount (st : State) : nat := size (users st).

(** *** Scenario: one room with two members, one of them chatting. *)
Definition two_in_lab : State :=
  stateOf (run initial [ Join "s1" "ann" "lab"; Join "s2" "bob" "lab";
                         SendMessage "s1" "hi" 5 ]).

(** *** Scenario: [s1] moved on to another room and left; its identifier
    is still in [lab], next to the live member [s2]. *)
Definition lab_with_ghost : State :=
  stateOf (run initial [ Join "s1" "ann" "lab"; Join "s2" "bob" "lab";
                         Join "s1" "ann" "den"; Disconnect "s1" ]).

End WebSocketService.

(** * Properties of the collaboration registry *)

Section registry.
Import WebSocketService.

(** Reduce the field reads on a record literal, nothing else. *)
Ltac fields := cbn [users rooms roomHistory roomMessages stateOf fst].

Lemma housed_add us rs s user ms :
  housed us rs -> rs !! room user = Some ms ->
  housed (<[s := user]> us) (<[room user := {[s]} ∪ ms]> rs).
Proof.
  intros Hu Hr sid v Hv.
  destruct (decide (s = sid)) as [->|Hne].
  - rewrite lookup_insert_eq in Hv. injection Hv as <-.
    rewrite lookup_insert_eq. eexists. split; [reflexivity|].
    apply elem_of_union_l, elem_of_singleton. reflexivity.
  - rewrite lookup_insert_ne in Hv by assumption.
    destruct (Hu _ _ Hv) as (members & Hms & Hin).
    destruct (decide (room user = room v)) as [Heq|Hnr].
    + rewrite Heq, lookup_insert_eq. rewrite <- Heq, Hr in Hms. injection Hms as <-.
      eexists. split; [reflexivity|]. apply elem_of_union_r. assumption.
    + rewrite lookup_insert_ne by assumption. eauto.
Qed.

Lemma housed_new_room us rs r :
  housed us rs -> rs !! r = None -> housed us (<[r := ∅]> rs).
Proof.
  intros Hu Hr sid v Hv. destruct (Hu _ _ Hv) as (members & Hms & Hin).
  exists members. split; [|assumption].
  rewrite lookup_insert_ne; [assumption|]. intros ->. congruence.
Qed.

Lemma housed_leave us rs s user ms :
  housed us rs -> rs !! room user = Some ms ->
  housed (delete s us) (<[room user := ms ∖ {[s]}]> rs).
Proof.
  intros Hu Hr sid v Hv.
  apply lookup_delete_Some in Hv as [Hne Hv].
  destruct (Hu _ _ Hv) as (members & Hms & Hin).
  destruct (decide (room user = room v)) as [Heq|Hnr].
  - rewrite Heq, lookup_insert_eq. rewrite <- Heq, Hr in Hms. injection Hms as <-.
    eexists. split; [reflexivity|].
    apply elem_of_difference. split; [assumption|].
    rewrite elem_of_singleton. congruence.
  - rewrite lookup_insert_ne by assumption. eauto.
Qed.

Lemma housed_leave_last us rs s user ms :
  housed us rs -> rs !! room user = Some ms -> size (ms ∖ {[s]}) = 0%nat ->
  housed (delete s us) (delete (room user) (<[room user := ms ∖ {[s]}]> rs)).
Proof.
  intros Hu Hr Hsz sid v Hv.
  destruct (housed_leave us rs s user ms Hu Hr sid v Hv) as (members & Hms & Hin).
  exists members. split; [|assumption].
  rewrite lookup_delete_ne; [assumption|]. intros Heq.
  rewrite Heq, lookup_insert_eq in Hms. injection Hms as <-.
  apply size_empty_inv in Hsz. apply (proj1 (elem_of_equiv_empty _) Hsz sid Hin).
Qed.

Lemma housed_forget us rs s : housed us rs -> housed (delete s us) rs.
Proof.
  intros Hu sid v Hv. apply lookup_delete_Some in Hv as [_ Hv]. eauto.
Qed.

Lemma registry_inv_initial : registry_inv initial.
Proof.
  split; [split; reflexivity|].
  intros sid u H. unfold initial in H. cbn [users] in H. rewrite lookup_empty in H. discriminate.
Qed.

Lemma handleJoin_inv st s u r :
  registry_inv st -> registry_inv (stateOf (handleJoin st s u r)).
Proof.
  intros [[Hh Hm] Hu]. unfold handleJoin.
  set (user := {| id := s; username := u; room := r |}).
  assert (∃ st1, keys_agree st1 ∧ housed (users st) (rooms st1) ∧
                 is_Some (rooms st1 !! r) ∧
                 match rooms st !! r with
                 | Some _ => {| users := <[s := user]> (users st); rooms := rooms st;
                      roomHistory := roomHistory st; roomMessages := roomMessages st |}
                 | None => {| users := <[s := user]> (users st);
                      rooms := <[r := ∅]> (rooms st);
                      roomHistory := <[r := []]> (roomHistory st);
                      roomMessages := <[r := []]> (roomMessages st) |}
                 end = {| users := <[s := user]> (users st); rooms := rooms st1;
                      roomHistory := roomHistory st1; roomMessages := roomMessages st1 |})
    as (st1 & [Hh1 Hm1] & Hu1 & [ms Hr1] & ->).
  { destruct (rooms st !! r) as [ms|] eqn:Hr.
    - exists st. repeat split; try assumption. eauto.
    - exists {| users := users st; rooms := <[r := ∅]> (rooms st);
                roomHistory := <[r := []]> (roomHistory st);
                roomMessages := <[r := []]> (roomMessages st) |}.
      repeat split; fields.
      + rewrite !dom_insert_L. congruence.
      + rewrite !dom_insert_L. congruence.
      + apply housed_new_room; assumption.
      + rewrite lookup_insert_eq. eauto. }
  cbn [rooms users roomHistory roomMessages]. rewrite Hr1.
  assert (registry_inv {| users := <[s := user]> (users st);
                          rooms := <[r := {[s]} ∪ ms]> (rooms st1);
                          roomHistory := roomHistory st1;
                          roomMessages := roomMessages st1 |}) as Hinv.
  { split; [split; fields|].
    - rewrite dom_insert_lookup_L by eauto. assumption.
    - rewrite dom_insert_lookup_L by eauto. assumption.
    - apply (housed_add (users st) (rooms st1) s user ms); assumption. }
  destruct (roomUsers _ _); exact Hinv.
Qed.

Lemma handleCodeChange_inv st s c now :
  registry_inv st -> registry_inv (stateOf (handleCodeChange st s c now)).
Proof.
  intros [[Hh Hm] Hu]. unfold handleCodeChange.
  destruct (users st !! s) as [user|] eqn:Hs; cbn [stateOf]; [|repeat split; assumption].
  destruct (Hu _ _ Hs) as (ms & Hr & _).
  split; [split; fields|exact Hu]; [|assumption].
  rewrite dom_insert_lookup_L; [assumption|].
  apply elem_of_dom. rewrite <- Hh. apply elem_of_dom. eauto.
Qed.

Lemma handleMessage_inv st s t now :
  registry_inv st -> registry_inv (stateOf (handleMessage st s t now)).
Proof.
  intros [[Hh Hm] Hu]. unfold handleMessage.
  destruct (users st !! s) as [user|] eqn:Hs; cbn [stateOf]; [|repeat split; assumption].
  destruct (Hu _ _ Hs) as (ms & Hr & _).
  split; [split; fields|exact Hu]; [assumption|].
  rewrite dom_insert_lookup_L; [assumption|].
  apply elem_of_dom. rewrite <- Hm. apply elem_of_dom. eauto.
Qed.

Lemma handleCursorUpdate_inv st s p :
  registry_inv st -> registry_inv (stateOf (handleCursorUpdate st s p)).
Proof. unfold handleCursorUpdate. destruct (users st !! s); trivial. Qed.

(** A [Done] disconnect keeps both parts of the invariant; a crashed one
    keeps the keys (the user entry is still there, the process is not). *)
Lemma handleDisconnect_inv st s :
  registry_inv st ->
  keys_agree (stateOf (handleDisconnect st s)) ∧
  ∀ st', handleDisconnect st s = Done st' -> users_housed st'.
Proof.
  intros [[Hh Hm] Hu]. unfold handleDisconnect.
  destruct (users st !! s) as [user|] eqn:Hs; cbn [stateOf].
  2:{ split; [split; assumption|]. intros st' [= <-]. assumption. }
  destruct (rooms st !! room user) as [ms|] eqn:Hr.
  2:{ split; [split; assumption|]. intros st' [= <-]. apply housed_forget, Hu. }
  destruct (decide (size (ms ∖ {[s]}) = 0%nat)) as [Hsz|Hsz].
  - split.
    + split; fields; rewrite !dom_delete_L, dom_insert_lookup_L by eauto; congruence.
    + intros st' [= <-]. apply housed_leave_last; assumption.
  - assert (keys_agree {| users := users st;
                          rooms := <[room user := ms ∖ {[s]}]> (rooms st);
                          roomHistory := roomHistory st;
                          roomMessages := roomMessages st |}) as Hk.
    { split; fields; rewrite dom_insert_lookup_L by eauto; assumption. }
    destruct (roomUsers _ _); cbn [stateOf].
    + split; [exact Hk|]. intros st' [= <-]. apply housed_leave; assumption.
    + split; [exact Hk|]. intros st' [=].
Qed.

Lemma createRoom_inv st uuid :
  registry_inv st -> rooms st !! uuid = None -> registry_inv (createRoom st uuid).1.
Proof.
  intros [[Hh Hm] Hu] Hfresh. unfold createRoom. split; [split; fields|].
  - rewrite !dom_insert_L. congruence.
  - rewrite !dom_insert_L. congruence.
  - apply housed_new_room; assumption.
Qed.

Lemma step_inv st ev :
  registry_inv st -> admissible st ev ->
  keys_agree (stateOf (step st ev)) ∧
  ∀ st', step st ev = Done st' -> registry_inv st'.
Proof.
  intros Hinv Hadm. destruct ev; cbn [step].
  - pose proof (handleJoin_inv st socketId username0 room0 Hinv) as H.
    split; [apply H|]. intros st' E. rewrite E in H. exact H.
  - pose proof (handleCodeChange_inv st socketId change now Hinv) as H.
    split; [apply H|]. intros st' E. rewrite E in H. exact H.
  - pose proof (handleMessage_inv st socketId text now Hinv) as H.
    split; [apply H|]. intros st' E. rewrite E in H. exact H.
  - pose proof (handleCursorUpdate_inv st socketId position Hinv) as H.
    split; [apply H|]. intros st' E. rewrite E in H. exact H.
  - destruct (handleDisconnect_inv st socketId Hinv) as [Hk Hd].
    split; [exact Hk|]. intros st' E. split; [|apply Hd, E].
    rewrite E in Hk. exact Hk.
  - pose proof (createRoom_inv st uuid Hinv Hadm) as H.
    split; [apply H|]. intros st' [= <-]. exact H.
Qed.

Lemma reachable_inv o :
  reachable o -> keys_agree (stateOf o) ∧ ∀ st, o = Done st -> registry_inv st.
Proof.
  induction 1 as [|st ev Hreach [_ IH] Hadm].
  - split; [apply registry_inv_initial|]. intros st [= <-]. apply registry_inv_initial.
  - apply step_inv; [apply IH; reflexivity|assumption].
Qed.

(** C10. In every outcome the service can reach (a handler that ran to
    its end, or one left by an uncaught exception), the room membership
    table, the code-change history table and the chat history table have
    exactly the same set of room keys. *)
Theorem room_tables_share_keys (o : Outcome) :
  reachable o ->
  dom (rooms (stateOf o)) = dom (roomHistory (stateOf o)) ∧
  dom (rooms (stateOf o)) = dom (roomMessages (stateOf o)).
Proof. intros H. destruct (reachable_inv o H) as [Hk _]. exact Hk. Qed.

Lemma reachable_run st evs :
  reachable (Done st) -> admissible_run st evs -> reachable (run st evs).
Proof.
  revert st. induction evs as [|ev evs IH]; intros st Hst Hadm; [exact Hst|].
  cbn [run admissible_run] in *. destruct Hadm as [Ha Hrest].
  pose proof (reachable_step st ev Hst Ha) as Hnext.
  destruct (step st ev) as [st'|st']; [apply IH; assumption|exact Hnext].
Qed.

Lemma room_tables_share_keys_witness :
  run initial stale_member_trace =
    Crashed (stateOf (run initial stale_member_trace)) ∧
  dom (rooms (stateOf (run initial stale_member_trace))) =
    dom (roomHistory (stateOf (run initial stale_member_trace))) ∧
  dom (rooms (stateOf (run initial stale_member_trace))) =
    dom (roomMessages (stateOf (run initial stale_member_trace))).
Proof.
  split; [vm_compute; reflexivity|].
  apply (room_tables_share_keys (run initial stale_member_trace)).
  apply reachable_run; [apply reachable_initial|].
  vm_compute. repeat split.
Defined.

End registry.

(** * Strings and paths *)

Section text.
Import JS Text.

Lemma append_cons (c : ascii) (a b : string) : String c a +:+ b = String c (a +:+ b).
Proof. reflexivity. Qed.

Lemma append_assoc (a b c : string) : (a +:+ b) +:+ c = a +:+ (b +:+ c).
Proof. induction a as [|x a IH]; [reflexivity|]. rewrite !append_cons, IH. reflexivity. Qed.

Lemma append_empty_r (a : string) : a +:+ "" = a.
Proof. induction a as [|x a IH]; [reflexivity|]. rewrite append_cons, IH. reflexivity. Qed.

Lemma starts_with_self_append (n q : string) : starts_with n (n +:+ q) = true.
Proof.
  induction n as [|x n IH]; [reflexivity|].
  rewrite append_cons. cbn [starts_with].
  rewrite bool_decide_eq_true_2 by reflexivity. exact IH.
Qed.

Lemma includes_append_r (n a b : string) :
  includes n b = true -> includes n (a +:+ b) = true.
Proof.
  intros H. induction a as [|x a IH]; [exact H|].
  rewrite append_cons. cbn [includes]. rewrite IH. apply orb_true_r.
Qed.

(** A needle occurs in any text written around it. *)
Lemma includes_infix (n p q : string) : includes n (p +:+ n +:+ q) = true.
Proof.
  apply includes_append_r. destruct (n +:+ q) eqn:E; cbn [includes];
    rewrite <- E, starts_with_self_append; reflexivity.
Qed.

(** A needle without the character [c] cannot straddle an occurrence of [c]. *)
Lemma starts_with_append_sep (c : ascii) (n a b : string) :
  has_char c n = false ->
  starts_with n (a +:+ String c b) = starts_with n a.
Proof.
  revert n. induction a as [|x a IH]; intros n Hn.
  - destruct n as [|y n]; [reflexivity|].
    cbn [has_char] in Hn. apply orb_false_elim in Hn as [Hy _].
    change ("" +:+ String c b) with (String c b). cbn [starts_with].
    rewrite Hy. reflexivity.
  - destruct n as [|y n]; [reflexivity|].
    rewrite append_cons. cbn [starts_with]. f_equal.
    apply IH. cbn [has_char] in Hn. apply orb_false_elim in Hn as [_ Hn]. exact Hn.
Qed.

Lemma includes_append_sep (c : ascii) (n a b : string) :
  has_char c n = false ->
  includes n (a +:+ String c b) = includes n a || includes n b.
Proof.
  intros Hn. induction a as [|x a IH].
  - change ("" +:+ String c b) with (String c b). cbn [includes].
    rewrite <- (starts_with_append_sep c n "" b Hn).
    change ("" +:+ String c b) with (String c b).
    rewrite orb_false_r. reflexivity.
  - rewrite append_cons. cbn [includes]. rewrite IH.
    rewrite <- append_cons, (starts_with_append_sep c n (String x a) b Hn).
    rewrite orb_assoc. reflexivity.
Qed.

Lemma includes_interleave (c : ascii) (n : string) (pieces : list string) :
  has_char c n = false -> pieces ≠ [] ->
  includes n (interleave c pieces) = existsb (includes n) pieces.
Proof.
  intros Hn. induction pieces as [|p ps IH]; [congruence|]. intros _.
  destruct ps as [|p' ps].
  - cbn [interleave existsb]. rewrite orb_false_r. reflexivity.
  - change (interleave c (p :: p' :: ps)) with (p +:+ String c (interleave c (p' :: ps))).
    rewrite (includes_append_sep c n _ _ Hn), IH by congruence. reflexivity.
Qed.

Lemma split_on_nonempty (c : ascii) (s : string) : Path.split_on c s ≠ [].
Proof.
  destruct s as [|a s]; cbn [Path.split_on]; [congruence|].
  destruct (decide (a = c)); [congruence|]. destruct (Path.split_on c s); congruence.
Qed.

Lemma split_on_whole (c : ascii) (s : string) :
  has_char c s = false -> Path.split_on c s = [s].
Proof.
  induction s as [|a s IH]; [reflexivity|]. cbn [has_char Path.split_on]. intros H.
  apply orb_false_elim in H as [Ha Hs]. apply bool_decide_eq_false in Ha.
  destruct (decide (a = c)); [contradiction|]. rewrite (IH Hs). reflexivity.
Qed.

Lemma split_on_append_sep (c : ascii) (a b : string) :
  Path.split_on c (a +:+ String c b) = Path.split_on c a ++ Path.split_on c b.
Proof.
  induction a as [|x a IH].
  - change ("" +:+ String c b) with (String c b). cbn [Path.split_on].
    destruct (decide (c = c)); [reflexivity|congruence].
  - rewrite append_cons. cbn [Path.split_on]. rewrite IH.
    destruct (decide (x = c)); [reflexivity|].
    pose proof (split_on_nonempty c a) as Hne.
    destruct (Path.split_on c a); [congruence|reflexivity].
Qed.

(** [path.basename] undoes [path.join] on a plain file name. *)
Lemma basename_join (d f : string) :
  has_char "/" f = false -> f ≠ "" -> Path.basename (Path.join d f) = f.
Proof.
  intros Hf Hne. unfold Path.basename, Path.join.
  change ("/" +:+ f) with (String "/" f).
  rewrite split_on_append_sep, (split_on_whole _ _ Hf), List.filter_app.
  cbn [List.filter]. rewrite bool_decide_eq_false_2 by assumption.
  cbn [negb]. apply List.last_last.
Qed.

End text.

(** * Properties of the executor *)

Section executor.
Import JS Text DockerExecutor.

Lemma cleanupTempDir_run env p h :
  cleanupTempDir env p h = (Returned tt, cleaned env p h).
Proof.
  unfold cleanupTempDir, try_catch, fs_rm, cleaned, console_error.
  destruct (fs_rm_error env p); reflexivity.
Qed.

(** The workspace could not be created: the error reaches the caller and
    nothing else was attempted. *)
Lemma executeCode_mkdir_fails env code options h e :
  fs_mkdir_error env (workspaceOf env) = Some e ->
  executeCode env code options h = (Thrown e, emit (Mkdir (workspaceOf env)) h).
Proof.
  intros H. unfold executeCode, bind, createTempDir, bind, fs_mkdir.
  fold (workspaceOf env). rewrite H. reflexivity.
Qed.

(** The source could not be written: the error reaches the caller from
    outside the [try], so neither the launch nor the cleanup runs. *)
Lemma executeCode_write_fails env code options h e :
  fs_mkdir_error env (workspaceOf env) = None ->
  fs_writeFile_error env (sourcePathOf env options) code = Some e ->
  executeCode env code options h =
    (Thrown e,
     emit (WriteFile (sourcePathOf env options) code)
       (addDir (workspaceOf env) (emit (Mkdir (workspaceOf env)) h))).
Proof.
  intros Hm Hw.
  unfold executeCode, bind, createTempDir, writeCodeToFile, bind, fs_mkdir, fs_writeFile, ret.
  fold (workspaceOf env). rewrite Hm.
  fold (codeFilename (language options)). fold (sourcePathOf env options).
  rewrite Hw. reflexivity.
Qed.

(** Workspace and source in place: the call returns the settled result and
    the host is the cleaned one. *)
Lemma executeCode_run env code options h :
  fs_mkdir_error env (workspaceOf env) = None ->
  fs_writeFile_error env (sourcePathOf env options) code = None ->
  executeCode env code options h =
    (Returned (settled env options),
     cleaned env (workspaceOf env) (beforeCleanup env code options h)).
Proof.
  intros Hm Hw.
  unfold executeCode, bind, createTempDir, writeCodeToFile, bind, fs_mkdir, fs_writeFile, ret.
  fold (workspaceOf env). rewrite Hm.
  fold (codeFilename (language options)). fold (sourcePathOf env options).
  rewrite Hw. fold (commandOf env options). fold (timeoutOf options).
  unfold try_finally, try_catch, bind, execPromise, ret, settled, beforeCleanup.
  destruct (child_process_exec env (commandOf env options) (timeoutOf options));
    cbv beta iota; rewrite cleanupTempDir_run; reflexivity.
Qed.

Lemma or_else_some (s d : string) : or_else (Some s) d = if decide (s = "") then d else s.
Proof. reflexivity. Qed.

(** What the [catch] block makes of a [Command failed] error. *)
Lemma failureResult_command_failed cmd out err code killed signal elapsed :
  failureResult (command_failed cmd out err code killed signal) elapsed =
    {| stdout := out;
       stderr := if decide (err = "") then "Command failed: " +:+ cmd +:+ LF else err;
       exitCode := code_or_1 code;
       executionTime := elapsed |}.
Proof.
  unfold failureResult, command_failed. cbn [e_stdout e_stderr e_message e_code].
  rewrite !or_else_some. f_equal.
  - destruct (decide (out = "")); congruence.
  - destruct (decide (err = "")) as [->|]; [|reflexivity].
    rewrite append_empty_r. reflexivity.
Qed.

(** The commands one call passes to the shell: none, or the one composed
    from the session identifier and the options. *)
Lemma commandsRun_cases env code options :
  commandsRun env code options = [] ∨
  commandsRun env code options = [commandOf env options].
Proof.
  unfold commandsRun.
  destruct (fs_mkdir_error env (workspaceOf env)) as [e|] eqn:Hm.
  { left. rewrite (executeCode_mkdir_fails _ _ _ _ _ Hm). reflexivity. }
  destruct (fs_writeFile_error env (sourcePathOf env options) code) as [e|] eqn:Hw.
  { left. rewrite (executeCode_write_fails _ _ _ _ _ Hm Hw). reflexivity. }
  right. rewrite (executeCode_run _ _ _ _ Hm Hw). cbn [snd].
  unfold cleaned, beforeCleanup.
  destruct (fs_rm_error env (workspaceOf env)); reflexivity.
Qed.

Lemma commandsRun_launch env code options :
  fs_mkdir_error env (workspaceOf env) = None ->
  fs_writeFile_error env (sourcePathOf env options) code = None ->
  commandsRun env code options = [commandOf env options].
Proof.
  intros Hm Hw. unfold commandsRun. rewrite (executeCode_run _ _ _ _ Hm Hw). cbn [snd].
  unfold cleaned, beforeCleanup.
  destruct (fs_rm_error env (workspaceOf env)); reflexivity.
Qed.

Lemma assoc_In k l v : assoc k l = Some v -> In v (map snd l).
Proof.
  induction l as [|[k' v'] l IH]; cbn [assoc map snd]; [discriminate|].
  destruct (decide (k = k')); [intros [= <-]; left; reflexivity|].
  intros H. right. apply IH, H.
Qed.

(** A test that holds of every value of a table, of every inherited value
    and of the fallback holds of whatever [table[k] || fallback] is. *)
Lemma or_else_get_forall (p : string -> bool) table d :
  forallb p (map snd table) = true ->
  forallb p (map snd Object_prototype) = true ->
  p d = true ->
  ∀ k, p (or_else (get table k) d) = true.
Proof.
  intros Ht Hp Hd k. unfold or_else, get.
  destruct (assoc k table) as [v|] eqn:E1.
  - destruct (decide (v = "")); [exact Hd|].
    apply (proj1 (forallb_forall _ _) Ht), (assoc_In _ _ _ E1).
  - destruct (assoc k Object_prototype) as [v|] eqn:E2; [|exact Hd].
    destruct (decide (v = "")); [exact Hd|].
    apply (proj1 (forallb_forall _ _) Hp), (assoc_In _ _ _ E2).
Qed.

Lemma assoc_same_keys k (l1 l2 : list (string * string)) :
  map fst l1 = map fst l2 -> assoc k l1 = None -> assoc k l2 = None.
Proof.
  revert l2. induction l1 as [|[k1 v1] l1 IH]; intros [|[k2 v2] l2]; cbn [map fst assoc];
    try discriminate; [reflexivity|].
  intros [= <- Hk]. destruct (decide (k = k1)); [discriminate|]. apply IH, Hk.
Qed.

Lemma getDockerCommand_pieces filePath dirPath language options :
  getDockerCommand filePath dirPath language options =
    interleave " "
      [ "docker"; "run"; "--rm";
        if truthy (networkDisabled options) then "--network=none" else "";
        "-m"; or_else (memoryLimit options) DEFAULT_MEMORY;
        "-v"; dirPath +:+ ":/code"; "-w"; "/code";
        or_else (get LANGUAGE_IMAGES language) "alpine:latest";
        or_else (get EXECUTION_COMMANDS language) "sh";
        Path.basename filePath ].
Proof.
  unfold getDockerCommand. cbn [interleave].
  rewrite (append_assoc dirPath ":/code"). reflexivity.
Qed.

Lemma network_flag_occurrences filePath dirPath language options :
  includes "--network=none" (getDockerCommand filePath dirPath language options) =
    truthy (networkDisabled options) ||
    includes "--network=none" (or_else (memoryLimit options) DEFAULT_MEMORY) ||
    includes "--network=none" dirPath ||
    includes "--network=none" (Path.basename filePath).
Proof.
  rewrite getDockerCommand_pieces, (includes_interleave " ") by (reflexivity || discriminate).
  cbn [existsb].
  rewrite (includes_append_sep ":" "--network=none" dirPath "/code") by reflexivity.
  pose proof (or_else_get_forall (fun s => negb (includes "--network=none" s))
                LANGUAGE_IMAGES "alpine:latest" eq_refl eq_refl eq_refl language) as Hi.
  pose proof (or_else_get_forall (fun s => negb (includes "--network=none" s))
                EXECUTION_COMMANDS "sh" eq_refl eq_refl eq_refl language) as Hc.
  apply negb_true_iff in Hi, Hc. rewrite Hi, Hc.
  change (includes "--network=none" "docker") with false.
  change (includes "--network=none" "run") with false.
  change (includes "--network=none" "--rm") with false.
  change (includes "--network=none" "-m") with false.
  change (includes "--network=none" "-v") with false.
  change (includes "--network=none" "-w") with false.
  change (includes "--network=none" "/code") with false.
  replace (includes "--network=none"
             (if truthy (networkDisabled options) then "--network=none" else ""))
    with (truthy (networkDisabled options))
    by (destruct (truthy (networkDisabled options)); reflexivity).
  cbn [orb]. rewrite !orb_false_r, !orb_assoc. reflexivity.
Qed.

(** A program that prints [hello] and exits with status 0: the result
    carries the output and exit code 0, and nothing is left on the host. *)
Example hello_run :
  let run := executeCode (quiet session "hello" "" (Exited 0) 100 140) "print('hello')" py pristine in
  run.1 = Returned {| stdout := "hello"; stderr := ""; exitCode := CNum 0; executionTime := 40 |} ∧
  dirs run.2 = ∅ ∧ files run.2 = ∅.
Proof.
  cbv zeta. rewrite executeCode_run by reflexivity. cbn [fst snd].
  split; [reflexivity|]. unfold cleaned, beforeCleanup.
  cbn [quiet fs_rm_error removeTree emit putFile addDir dirs files pristine].
  split.
  - apply set_eq. intros x. rewrite elem_of_difference, elem_of_union, !elem_of_empty.
    tauto.
  - apply map_eq. intros k. rewrite lookup_empty. apply map_lookup_filter_None.
    destruct (decide (k = sourcePathOf (quiet session "hello" "" (Exited 0) 100 140) py)) as [->|Hne].
    + right. intros v _. cbn [fst]. discriminate.
    + left. rewrite lookup_insert_ne by congruence. apply lookup_empty.
Qed.

(** The file name is a plain name, so [path.basename] of the source path
    gives it back. *)
Lemma basename_sourcePath env options :
  Path.basename (sourcePathOf env options) = codeFilename (language options).
Proof.
  unfold sourcePathOf. apply basename_join.
  - apply negb_true_iff.
    exact (or_else_get_forall (fun s => negb (has_char "/" ("code." +:+ s)))
             LANGUAGE_EXTENSIONS "txt" eq_refl eq_refl eq_refl (language options)).
  - unfold codeFilename. discriminate.
Qed.

(** In the command a call composes, the network flag is there exactly when
    [networkDisabled] is set, unless the caller's [memoryLimit] (or the
    session identifier) brings the flag text along. *)
Lemma network_flag_in_call env options :
  (∀ s, memoryLimit options = Some s -> includes "--network=none" s = false) ->
  includes "--network=none" (uuidv4 env) = false ->
  includes "--network=none" (commandOf env options) = true <->
  networkDisabled options = Some true.
Proof.
  intros Hmem Hid. unfold commandOf.
  rewrite network_flag_occurrences, basename_sourcePath.
  unfold workspaceOf, Path.join. change ("/" +:+ uuidv4 env) with (String "/" (uuidv4 env)).
  rewrite (includes_append_sep "/" "--network=none" TEMP_DIR (uuidv4 env)) by reflexivity.
  rewrite Hid.
  pose proof (or_else_get_forall (fun s => negb (includes "--network=none" ("code." +:+ s)))
                LANGUAGE_EXTENSIONS "txt" eq_refl eq_refl eq_refl (language options)) as Hf.
  apply negb_true_iff in Hf. fold (codeFilename (language options)) in Hf. rewrite Hf.
  assert (includes "--network=none" (or_else (memoryLimit options) DEFAULT_MEMORY) = false) as ->.
  { unfold or_else. destruct (memoryLimit options) as [s|] eqn:E; [|reflexivity].
    destruct (decide (s = "")); [reflexivity|]. apply Hmem. reflexivity. }
  change (includes "--network=none" TEMP_DIR) with false. cbn [orb].
  rewrite !orb_false_r. unfold truthy.
  destruct (networkDisabled options) as [[|]|]; split; (reflexivity || discriminate).
Qed.

(** C1, as the code has it.  When workspace and source are in place, then
    whatever the launched command does (success, failure, timeout, failed
    launch) the call makes exactly one deletion request for the workspace
    after the launch and before returning, and if that request does not
    fail the workspace directory and every file below it are gone on
    return.  When the workspace cannot be created, no directory is left. *)
Theorem workspace_removed_after_run env code options h :
  (fs_mkdir_error env (workspaceOf env) = None ->
   fs_writeFile_error env (sourcePathOf env options) code = None ->
   let h' := (executeCode env code options h).2 in
   (∃ log,
      events h' =
        events h ++
        [Mkdir (workspaceOf env); WriteFile (sourcePathOf env options) code;
         Exec (commandOf env options) (timeoutOf options); Rm (workspaceOf env)] ++ log ∧
      (∀ p, Rm p ∉ log)) ∧
   (fs_rm_error env (workspaceOf env) = None ->
    (workspaceOf env ∉ dirs h') ∧
    ∀ k, below (workspaceOf env) k = true -> files h' !! k = None)) ∧
  (∀ e, fs_mkdir_error env (workspaceOf env) = Some e ->
        dirs (executeCode env code options h).2 = dirs h).
Proof.
  split.
  - intros Hm Hw. cbv zeta. rewrite (executeCode_run _ _ _ _ Hm Hw). cbn [snd].
    unfold cleaned, beforeCleanup. split.
    + destruct (fs_rm_error env (workspaceOf env)) as [e|].
      * eexists [_]. cbn [emit removeTree addDir putFile events]. split.
        -- rewrite <- !app_assoc. reflexivity.
        -- intros p Hin. apply list_elem_of_singleton in Hin. discriminate.
      * exists []. cbn [emit removeTree addDir putFile events]. split.
        -- rewrite <- !app_assoc. reflexivity.
        -- intros p Hin. apply elem_of_nil in Hin. exact Hin.
    + intros Hr. rewrite Hr. cbn [removeTree dirs files]. split.
      * intros Hin. apply elem_of_difference in Hin as [_ Hn].
        apply Hn, elem_of_singleton. reflexivity.
      * intros k Hk. apply map_lookup_filter_None. right. intros v _.
        cbn [fst]. rewrite Hk. discriminate.
  - intros e Hm. rewrite (executeCode_mkdir_fails _ _ _ _ _ Hm). reflexivity.
Qed.

Lemma workspace_removed_after_run_witness :
  workspaceOf env_exit2 ∉ dirs (executeCode env_exit2 "print(1)" py pristine).2.
Proof.
  destruct (workspace_removed_after_run env_exit2 "print(1)" py pristine) as [H _].
  cbv zeta in H. destruct (H eq_refl eq_refl) as [_ Hgone].
  exact (proj1 (Hgone eq_refl)).
Defined.

(** C1 as stated fails.  The host refuses the deletion: the call returns
    its result and the workspace is still there.  And on the path the
    claim names, a failed write of the source, the workspace was created,
    the call throws, and no deletion was requested at all. *)
Lemma workspace_outlives_call :
  (let run := executeCode env_rm_busy "print(1)" py pristine in
   run.1 = Returned {| stdout := "1"; stderr := ""; exitCode := CNum 0; executionTime := 40 |} ∧
   dirs run.2 = {[ workspaceOf env_rm_busy ]}) ∧
  (let run := executeCode env_disk_full "print(1)" py pristine in
   run.1 = Thrown (fsError "ENOSPC" "ENOSPC: no space left on device") ∧
   dirs run.2 = {[ workspaceOf env_disk_full ]} ∧
   events run.2 =
     [Mkdir (workspaceOf env_disk_full);
      WriteFile (sourcePathOf env_disk_full py) "print(1)"]).
Proof.
  split; cbv zeta.
  - rewrite executeCode_run by reflexivity. cbn [fst snd]. split; [reflexivity|].
    unfold cleaned, beforeCleanup. cbn [env_rm_busy fs_rm_error emit putFile addDir dirs pristine].
    apply union_empty_r_L.
  - rewrite (executeCode_write_fails _ _ _ _ (fsError "ENOSPC" "ENOSPC: no space left on device"))
      by reflexivity.
    cbn [fst snd emit putFile addDir dirs events pristine].
    split; [reflexivity|]. split; [apply union_empty_r_L|reflexivity].
Qed.

(** C2. Two calls that differ only in the submitted code launch the same
    command: a command passed to the shell by the first call and one passed
    by the second are the same string, the one composed from the session
    identifier and the options alone. *)
Theorem command_independent_of_code env code1 code2 options c1 c2 :
  c1 ∈ commandsRun env code1 options ->
  c2 ∈ commandsRun env code2 options ->
  c1 = c2 ∧ c1 = commandOf env options.
Proof.
  intros H1 H2.
  destruct (commandsRun_cases env code1 options) as [E1|E1]; rewrite E1 in H1;
    [apply elem_of_nil in H1; contradiction|].
  destruct (commandsRun_cases env code2 options) as [E2|E2]; rewrite E2 in H2;
    [apply elem_of_nil in H2; contradiction|].
  apply list_elem_of_singleton in H1, H2. subst. split; reflexivity.
Qed.

Lemma command_independent_of_code_witness :
  commandOf env_exit2 py ∈ commandsRun env_exit2 "print(1)" py ∧
  commandOf env_exit2 py ∈ commandsRun env_exit2 "import os" py ∧
  commandOf env_exit2 py = commandOf env_exit2 py ∧
  commandOf env_exit2 py = commandOf env_exit2 py.
Proof.
  assert (∀ code, commandOf env_exit2 py ∈ commandsRun env_exit2 code py) as Hin.
  { intros code. rewrite commandsRun_launch by reflexivity.
    apply list_elem_of_singleton. reflexivity. }
  split; [apply Hin|]. split; [apply Hin|].
  exact (command_independent_of_code env_exit2 "print(1)" "import os" py _ _
           (Hin "print(1)") (Hin "import os")).
Defined.

(** C3, as the code has it.  With workspace and source in place the call
    returns a result whatever the launched command does; a rejected
    workspace creation and a rejected write of the source both reach the
    caller as the thrown error. *)
Theorem only_exec_failures_are_captured env code options h :
  (fs_mkdir_error env (workspaceOf env) = None ->
   fs_writeFile_error env (sourcePathOf env options) code = None ->
   (executeCode env code options h).1 = Returned (settled env options)) ∧
  (∀ e, fs_mkdir_error env (workspaceOf env) = None ->
        fs_writeFile_error env (sourcePathOf env options) code = Some e ->
        (executeCode env code options h).1 = Thrown e) ∧
  (∀ e, fs_mkdir_error env (workspaceOf env) = Some e ->
        (executeCode env code options h).1 = Thrown e).
Proof.
  split; [|split].
  - intros Hm Hw. rewrite (executeCode_run _ _ _ _ Hm Hw). reflexivity.
  - intros e Hm Hw. rewrite (executeCode_write_fails _ _ _ _ _ Hm Hw). reflexivity.
  - intros e Hm. rewrite (executeCode_mkdir_fails _ _ _ _ _ Hm). reflexivity.
Qed.

Lemma only_exec_failures_are_captured_witness :
  (executeCode env_exit2 "print(1)" py pristine).1 = Returned (settled env_exit2 py) ∧
  (executeCode env_disk_full "print(1)" py pristine).1 =
    Thrown (fsError "ENOSPC" "ENOSPC: no space left on device").
Proof.
  split.
  - exact (proj1 (only_exec_failures_are_captured env_exit2 "print(1)" py pristine)
             eq_refl eq_refl).
  - exact (proj1 (proj2 (only_exec_failures_are_captured env_disk_full "print(1)" py pristine))
             _ eq_refl eq_refl).
Defined.

(** C3 as stated fails: the disk is full when the source is written, after
    the workspace was created, and the caller gets the exception. *)
Lemma write_failure_reaches_caller :
  fs_mkdir_error env_disk_full (workspaceOf env_disk_full) = None ∧
  (executeCode env_disk_full "print(1)" py pristine).1 =
    Thrown (fsError "ENOSPC" "ENOSPC: no space left on device").
Proof. split; reflexivity. Qed.

(** C4, as the code has it.  When the deadline kills the launched command,
    the call returns a result with exit code 1 whose [stdout] is what was
    captured and whose [stderr] is the captured error stream, or the
    [Command failed] message when that stream is empty.  [executionTime]
    is the timeout plus the delay with which the host reports the kill, so
    it is at least the timeout and exceeds it by no more than that delay.
    Nothing in the result records the timeout: a command that exits with
    status 1 by itself after the same output sets the same [stdout],
    [stderr] and [exitCode]. *)
Theorem timeout_result env code options h out err lag :
  fs_mkdir_error env (workspaceOf env) = None ->
  fs_writeFile_error env (sourcePathOf env options) code = None ->
  deadline_kill env (commandOf env options) (timeoutOf options) out err lag ->
  (executeCode env code options h).1 =
    Returned
      {| stdout := out;
         stderr := if decide (err = "")
                   then "Command failed: " +:+ commandOf env options +:+ LF
                   else err;
         exitCode := CNum 1;
         executionTime := timeoutOf options + lag |} ∧
  (∀ tolerance, lag <= tolerance ->
     timeoutOf options <= timeoutOf options + lag <= timeoutOf options + tolerance) ∧
  ∀ elapsed,
    failureResult (command_failed (commandOf env options) out err CNull true (Some "SIGTERM")) elapsed =
    failureResult (command_failed (commandOf env options) out err (CNum 1) false None) elapsed.
Proof.
  intros Hm Hw (Hx & Hlag & Hclock). split; [|split].
  - rewrite (executeCode_run _ _ _ _ Hm Hw). cbn [fst]. unfold settled. rewrite Hx.
    cbn [exec_report]. rewrite failureResult_command_failed. cbn [code_or_1].
    f_equal. f_equal. rewrite Hclock. lia.
  - intros tolerance Htol. lia.
  - intros elapsed. rewrite !failureResult_command_failed. reflexivity.
Qed.

Lemma timeout_result_witness :
  deadline_kill env_sleeper_lagged (commandOf env_sleeper_lagged py) (timeoutOf py)
    "tick" "late" 12 ∧
  (executeCode env_sleeper_lagged "while True: pass" py pristine).1 =
    Returned {| stdout := "tick"; stderr := "late"; exitCode := CNum 1;
                executionTime := 1012 |}.
Proof.
  assert (deadline_kill env_sleeper_lagged (commandOf env_sleeper_lagged py) (timeoutOf py)
            "tick" "late" 12) as Hk.
  { split; [reflexivity|]. split; [lia|reflexivity]. }
  split; [exact Hk|].
  exact (proj1 (timeout_result env_sleeper_lagged "while True: pass" py pristine
                  "tick" "late" 12 eq_refl eq_refl Hk)).
Defined.

(** C4 as stated fails: the program wrote [late] to its error stream and
    was killed at the deadline; the returned [stderr] is exactly [late],
    and the whole result equals the one of a program that wrote the same
    and exited with status 1 without any deadline involved. *)
Lemma timeout_leaves_no_mark :
  (executeCode env_sleeper "while True: pass" py pristine).1 =
    Returned {| stdout := "tick"; stderr := "late"; exitCode := CNum 1;
                executionTime := 1000 |} ∧
  (executeCode env_sleeper "while True: pass" py pristine).1 =
  (executeCode env_exit1 "while True: pass" py pristine).1.
Proof. split; reflexivity. Qed.

Lemma exec_capture_within cmd out err pe :
  byteLength out <= MAX_BUFFER -> byteLength err <= MAX_BUFFER ->
  exec_capture cmd out err pe = exec_report cmd out err pe.
Proof.
  intros Ho He. unfold exec_capture.
  destruct (decide (MAX_BUFFER < byteLength out)); [lia|].
  destruct (decide (MAX_BUFFER < byteLength err)); [lia|]. reflexivity.
Qed.

(** C5, as the code has it.  When the launched command exits by itself,
    having written no more than [maxBuffer] (1 MiB) to each stream, the
    call returns: for status 0, the captured streams and exit code 0; for
    a non-zero status, that status as exit code, the captured [stdout],
    and as [stderr] the captured error stream, or the [Command failed]
    message when that stream is empty. *)
Theorem exit_status_result env code options h out err status :
  fs_mkdir_error env (workspaceOf env) = None ->
  fs_writeFile_error env (sourcePathOf env options) code = None ->
  byteLength out <= MAX_BUFFER ->
  byteLength err <= MAX_BUFFER ->
  child_process_exec env (commandOf env options) (timeoutOf options) =
    exec_capture (commandOf env options) out err (Exited status) ->
  (executeCode env code options h).1 =
    Returned
      {| stdout := out;
         stderr := if decide (status = 0) then err
                   else if decide (err = "")
                        then "Command failed: " +:+ commandOf env options +:+ LF
                        else err;
         exitCode := CNum status;
         executionTime := clock_at_settle env - clock_at_launch env |}.
Proof.
  intros Hm Hw Ho He Hx. rewrite (executeCode_run _ _ _ _ Hm Hw). cbn [fst].
  unfold settled. rewrite Hx, (exec_capture_within _ _ _ _ Ho He). cbn [exec_report].
  destruct (decide (status = 0)) as [->|Hs]; [reflexivity|].
  rewrite failureResult_command_failed. cbn [code_or_1].
  destruct (decide (status = 0)); [contradiction|reflexivity].
Qed.

Lemma exit_status_result_witness :
  byteLength "" <= MAX_BUFFER ∧
  (executeCode env_exit2 "import sys; sys.exit(2)" py pristine).1 =
    Returned {| stdout := ""; stderr := "Command failed: " +:+ commandOf env_exit2 py +:+ LF;
                exitCode := CNum 2; executionTime := 40 |}.
Proof.
  assert (byteLength "" <= MAX_BUFFER) as Hb by (vm_compute; discriminate).
  split; [exact Hb|].
  exact (exit_status_result env_exit2 "import sys; sys.exit(2)" py pristine "" "" 2
           eq_refl eq_refl Hb Hb eq_refl).
Defined.

(** C5 as stated fails, in two ways.  A program that exits with status 2
    having written nothing: the returned [stderr] is not the (empty)
    captured stream but the [Command failed] message.  And a program that
    writes one byte more than 1 MiB to its output and exits with status 0:
    the call returns Node's error code as [exitCode], not 0, and a
    [stdout] cut to 1 MiB. *)
Lemma exit_result_not_verbatim :
  ((executeCode env_exit2 "import sys; sys.exit(2)" py pristine).1 =
     Returned
       {| stdout := "";
          stderr := "Command failed: " +:+ commandOf env_exit2 py +:+ LF;
          exitCode := CNum 2;
          executionTime := 40 |} ∧
   "Command failed: " +:+ commandOf env_exit2 py +:+ LF ≠ "") ∧
  (∃ r,
     (executeCode env_flood "print('x' * 1048577, end='')" py pristine).1 = Returned r ∧
     exitCode r = CStr "ERR_CHILD_PROCESS_STDIO_MAXBUFFER" ∧
     byteLength (stdout r) = 1048576 ∧
     byteLength flood = 1048577).
Proof.
  split; [split; [reflexivity|discriminate]|].
  eexists. split; [rewrite executeCode_run by reflexivity; reflexivity|].
  vm_compute. repeat split.
Qed.

(** The fallback works for an identifier that is neither a key of the
    tables nor the name of an inherited property. *)
Lemma generic_profile language filePath dirPath options :
  assoc language LANGUAGE_EXTENSIONS = None ->
  assoc language Object_prototype = None ->
  codeFilename language = "code.txt" ∧
  getDockerCommand filePath dirPath language options =
    "docker run --rm " +:+
    (if truthy (networkDisabled options) then "--network=none" else "") +:+
    " -m " +:+ or_else (memoryLimit options) DEFAULT_MEMORY +:+
    " -v " +:+ dirPath +:+ ":/code -w /code alpine:latest sh " +:+
    Path.basename filePath.
Proof.
  intros He Hp. unfold codeFilename, getDockerCommand, get.
  rewrite He, Hp.
  rewrite (assoc_same_keys language LANGUAGE_EXTENSIONS LANGUAGE_IMAGES eq_refl He).
  rewrite (assoc_same_keys language LANGUAGE_EXTENSIONS EXECUTION_COMMANDS eq_refl He).
  split; reflexivity.
Qed.

(** C6 at the identifier [constructor], which is outside the supported
    set: the property reads find [Object.prototype.constructor], the
    fallbacks are skipped, and the call writes
    [code.function Object() { [native code] }] and launches a command whose
    image and run command are that same text instead of the generic
    profile. *)
Theorem inherited_name_skips_fallback :
  events (executeCode env_exit2 "echo hi"
            {| timeout := None; memoryLimit := None; networkDisabled := None;
               language := "constructor" |} pristine).2 =
    [ Mkdir "/tmp/code-execution/1b9d6bcd-bbfd-4b2d-9b5d-ab8dfbbd4bed";
      WriteFile
        "/tmp/code-execution/1b9d6bcd-bbfd-4b2d-9b5d-ab8dfbbd4bed/code.function Object() { [native code] }"
        "echo hi";
      Exec
        "docker run --rm  -m 256m -v /tmp/code-execution/1b9d6bcd-bbfd-4b2d-9b5d-ab8dfbbd4bed:/code -w /code function Object() { [native code] } function Object() { [native code] } code.function Object() { [native code] }"
        10000;
      Rm "/tmp/code-execution/1b9d6bcd-bbfd-4b2d-9b5d-ab8dfbbd4bed" ].
Proof. reflexivity. Qed.

(** C7. Once workspace and source are in place, a failing deletion of the
    workspace is reported on the console and nothing else: the call still
    returns, and returns the result computed before the cleanup.  Cleanup
    itself never throws, and when the deletion does not fail the directory
    is absent afterwards whether or not it existed, so a second cleanup
    changes nothing on disk. *)
Theorem cleanup_failure_is_swallowed env code options h :
  (∀ e,
     fs_mkdir_error env (workspaceOf env) = None ->
     fs_writeFile_error env (sourcePathOf env options) code = None ->
     fs_rm_error env (workspaceOf env) = Some e ->
     (executeCode env code options h).1 = Returned (settled env options) ∧
     List.last (events (executeCode env code options h).2) (Mkdir "") =
       ConsoleError ("Error cleaning up temp directory: " +:+ e_message e)) ∧
  (∀ p, (cleanupTempDir env p h).1 = Returned tt) ∧
  (∀ p, fs_rm_error env p = None ->
     let h1 := (cleanupTempDir env p h).2 in
     let h2 := (cleanupTempDir env p h1).2 in
     (p ∉ dirs h1) ∧ dirs h2 = dirs h1 ∧ files h2 = files h1).
Proof.
  split; [|split].
  - intros e Hm Hw Hr. rewrite (executeCode_run _ _ _ _ Hm Hw). cbn [fst snd].
    split; [reflexivity|]. unfold cleaned. rewrite Hr. unfold emit at 1.
    cbn [events]. apply List.last_last.
  - intros p. rewrite cleanupTempDir_run. reflexivity.
  - intros p Hr. cbv zeta. rewrite !cleanupTempDir_run. cbn [snd]. unfold cleaned. rewrite Hr.
    cbn [removeTree emit dirs files]. split; [|split].
    + intros Hin. apply elem_of_difference in Hin as [_ Hn]. apply Hn, elem_of_singleton.
      reflexivity.
    + apply set_eq. intros x. rewrite !elem_of_difference. tauto.
    + apply map_eq. intros k. apply option_eq. intros v.
      rewrite !map_lookup_filter_Some. tauto.
Qed.

Lemma cleanup_failure_is_swallowed_witness :
  (executeCode env_rm_busy "print(1)" py pristine).1 = Returned (settled env_rm_busy py) ∧
  List.last (events (executeCode env_rm_busy "print(1)" py pristine).2) (Mkdir "") =
    ConsoleError "Error cleaning up temp directory: EBUSY: resource busy or locked".
Proof.
  exact (proj1 (cleanup_failure_is_swallowed env_rm_busy "print(1)" py pristine)
           (fsError "EBUSY" "EBUSY: resource busy or locked") eq_refl eq_refl eq_refl).
Defined.

(** C8, as the code has it.  The command contains the network-disabling
    flag whenever [networkDisabled] is set; when it is not set, the flag
    text can only come from the caller's [memoryLimit] or from the paths,
    so the command is free of it as soon as those are.  The command always
    contains a memory flag: with the requested [memoryLimit] when that is
    a non-empty string, with [256m] when it is unset or empty. *)
Theorem network_and_memory_flags filePath dirPath language options :
  let cmd := getDockerCommand filePath dirPath language options in
  (networkDisabled options = Some true -> includes "--network=none" cmd = true) ∧
  ((∀ s, memoryLimit options = Some s -> includes "--network=none" s = false) ->
   includes "--network=none" dirPath = false ->
   includes "--network=none" (Path.basename filePath) = false ->
   includes "--network=none" cmd = true -> networkDisabled options = Some true) ∧
  (∀ s, memoryLimit options = Some s -> s ≠ "" ->
        includes (" -m " +:+ s +:+ " -v ") cmd = true) ∧
  (memoryLimit options = None ∨ memoryLimit options = Some "" ->
   includes " -m 256m -v " cmd = true).
Proof.
  cbv zeta. split; [|split; [|split]].
  - intros Hn. rewrite network_flag_occurrences, Hn. reflexivity.
  - intros Hmem Hd Hf. rewrite network_flag_occurrences, Hd, Hf, !orb_false_r.
    assert (includes "--network=none" (or_else (memoryLimit options) DEFAULT_MEMORY) = false) as ->.
    { unfold or_else. destruct (memoryLimit options) as [s|] eqn:E; [|reflexivity].
      destruct (decide (s = "")); [reflexivity|]. apply Hmem. reflexivity. }
    rewrite orb_false_r. unfold truthy.
    destruct (networkDisabled options) as [[|]|]; [reflexivity|discriminate..].
  - intros s Hs Hne. unfold getDockerCommand. rewrite Hs, or_else_some.
    destruct (decide (s = "")); [contradiction|].
    rewrite <- (append_assoc "docker run --rm ").
    rewrite <- !(append_assoc " -m "). rewrite <- (append_assoc (" -m " +:+ s)).
    apply includes_infix.
  - intros Hs. unfold getDockerCommand.
    assert (or_else (memoryLimit options) DEFAULT_MEMORY = "256m") as ->.
    { destruct Hs as [-> | ->]; reflexivity. }
    rewrite <- (append_assoc "docker run --rm ").
    change (" -m " +:+ "256m" +:+ " -v " +:+ ?x) with (" -m 256m -v " +:+ x).
    apply includes_infix.
Qed.

Lemma network_and_memory_flags_witness :
  let cmd := getDockerCommand "/tmp/code-execution/s/code.py" "/tmp/code-execution/s" "python"
               {| timeout := None; memoryLimit := Some "512m";
                  networkDisabled := Some true; language := "python" |} in
  includes "--network=none" cmd = true ∧
  includes " -m 512m -v " cmd = true.
Proof.
  pose proof (network_and_memory_flags "/tmp/code-execution/s/code.py"
                "/tmp/code-execution/s" "python"
                {| timeout := None; memoryLimit := Some "512m";
                   networkDisabled := Some true; language := "python" |}) as H.
  cbv zeta in *. destruct H as (Hn & _ & Hm & _). split.
  - apply Hn. reflexivity.
  - apply (Hm "512m"); [reflexivity|discriminate].
Defined.

(** C8 as stated fails: [networkDisabled] is not set, and the composed
    command contains the network-disabling flag, carried in by the
    [memoryLimit] text. *)
Lemma network_flag_without_networkDisabled :
  networkDisabled smuggled = None ∧
  commandOf env_exit2 smuggled =
    "docker run --rm  -m 64m --network=none -v /tmp/code-execution/1b9d6bcd-bbfd-4b2d-9b5d-ab8dfbbd4bed:/code -w /code python:3.10-alpine python code.py" ∧
  includes "--network=none" (commandOf env_exit2 smuggled) = true.
Proof. repeat split. Qed.

(** C9. The text of a non-empty [memoryLimit] is placed unchanged, between
    a prefix and a suffix that do not depend on it, in the one command
    string the call passes to the shell. *)
Theorem memoryLimit_reaches_shell env code to nd lang :
  ∃ pre post, ∀ s,
    let options := {| timeout := to; memoryLimit := Some s;
                      networkDisabled := nd; language := lang |} in
    s ≠ "" ->
    fs_mkdir_error env (workspaceOf env) = None ->
    fs_writeFile_error env (sourcePathOf env options) code = None ->
    commandsRun env code options = [pre +:+ s +:+ post].
Proof.
  exists ("docker run --rm " +:+ (if truthy nd then "--network=none" else "") +:+ " -m "),
         (" -v " +:+ workspaceOf env +:+ ":/code -w /code " +:+
          or_else (get LANGUAGE_IMAGES lang) "alpine:latest" +:+ " " +:+
          or_else (get EXECUTION_COMMANDS lang) "sh" +:+ " " +:+
          Path.basename (Path.join (workspaceOf env) (codeFilename lang))).
  intros s options Hs Hm Hw. rewrite (commandsRun_launch _ _ _ Hm Hw). f_equal.
  unfold commandOf, getDockerCommand, sourcePathOf, options.
  cbn [memoryLimit networkDisabled language]. rewrite or_else_some.
  destruct (decide (s = "")); [contradiction|].
  rewrite !append_assoc. reflexivity.
Qed.

Lemma memoryLimit_reaches_shell_witness :
  ∃ pre post,
    commandsRun env_exit2 "print(1)"
      {| timeout := None; memoryLimit := Some "1g; touch /tmp/x #";
         networkDisabled := None; language := "python" |}
    = [pre +:+ "1g; touch /tmp/x #" +:+ post].
Proof.
  destruct (memoryLimit_reaches_shell env_exit2 "print(1)" None None "python")
    as (pre & post & H).
  exists pre, post. apply (H "1g; touch /tmp/x #"); [discriminate|reflexivity|reflexivity].
Defined.

End executor.

(** * Further properties of the executor *)

Section executor_frame.
Import JS Text DockerExecutor.



Lemma below_sourcePath env options :
  below (workspaceOf env) (sourcePathOf env options) = true.
Proof.
  unfold below, sourcePathOf, Path.join.
  rewrite <- (append_assoc (workspaceOf env) "/"). apply starts_with_self_append.
Qed.



(** The events one call adds on a host with no history, by case. *)
Lemma events_of_call_cases env code options :
  let evs := events (executeCode env code options pristine).2 in
  ∀ ev, ev ∈ evs ->
    ev = Mkdir (workspaceOf env) ∨
    ev = WriteFile (sourcePathOf env options) code ∨
    ev = Exec (commandOf env options) (timeoutOf options) ∨
    ev = Rm (workspaceOf env) ∨
    ∃ msg, ev = ConsoleError msg.
Proof.
  cbv zeta. intros ev.
  destruct (fs_mkdir_error env (workspaceOf env)) as [e|] eqn:Hm.
  { rewrite (executeCode_mkdir_fails _ _ _ _ _ Hm). cbn [snd emit events pristine app].
    intros H. apply list_elem_of_singleton in H. auto. }
  destruct (fs_writeFile_error env (sourcePathOf env options) code) as [e|] eqn:Hw.
  { rewrite (executeCode_write_fails _ _ _ _ _ Hm Hw).
    cbn [snd emit putFile addDir events pristine app].
    intros H. apply elem_of_cons in H as [H|H]; [auto|].
    apply list_elem_of_singleton in H. auto. }
  rewrite (executeCode_run _ _ _ _ Hm Hw). cbn [snd]. unfold cleaned, beforeCleanup.
  destruct (fs_rm_error env (workspaceOf env));
    cbn [snd emit putFile addDir removeTree events pristine app];
    intros H; repeat (apply elem_of_cons in H as [H|H]; [eauto 10|]);
    apply elem_of_nil in H; contradiction.
Qed.

(** X1. The file-system calls a call makes itself stay in its workspace:
    the only directory it asks to create or to remove is the workspace,
    and the only file it writes is the source file, which lies below the
    workspace and receives the submitted code.  (What the launched command
    does to the host is not the executor's call and is not stated.) *)
Theorem own_fs_calls_stay_in_workspace env code options ev :
  ev ∈ events (executeCode env code options pristine).2 ->
  match ev with
  | Mkdir p | Rm p => p = workspaceOf env
  | WriteFile p content =>
      p = sourcePathOf env options ∧ below (workspaceOf env) p = true ∧ content = code
  | Exec _ _ | ConsoleError _ => True
  end.
Proof.
  intros H.
  destruct (events_of_call_cases env code options ev H)
    as [-> | [-> | [-> | [-> | [msg ->]]]]]; try reflexivity; try exact I.
  split; [reflexivity|]. split; [apply below_sourcePath|reflexivity].
Qed.

Lemma own_fs_calls_stay_in_workspace_witness :
  WriteFile (sourcePathOf env_rm_busy py) "print(1)"
    ∈ events (executeCode env_rm_busy "print(1)" py pristine).2 ∧
  below (workspaceOf env_rm_busy) (sourcePathOf env_rm_busy py) = true.
Proof.
  assert (WriteFile (sourcePathOf env_rm_busy py) "print(1)"
            ∈ events (executeCode env_rm_busy "print(1)" py pristine).2) as Hin.
  { rewrite executeCode_run by reflexivity. cbn [snd]. unfold cleaned, beforeCleanup.
    cbn [env_rm_busy fs_rm_error emit putFile addDir removeTree events pristine app].
    apply list_elem_of_further. apply list_elem_of_here. }
  split; [exact Hin|].
  exact (proj1 (proj2 (own_fs_calls_stay_in_workspace env_rm_busy "print(1)" py _ Hin))).
Defined.



End executor_frame.

Section executor_results.
Import JS Text DockerExecutor.

Lemma code_or_1_nonzero c : code_or_1 c ≠ CNum 0 ∧ code_or_1 c ≠ CNull.
Proof.
  destruct c as [|n|s]; cbn [code_or_1].
  - split; discriminate.
  - destruct (decide (n = 0)); split; congruence.
  - destruct (decide (s = "")); split; discriminate.
Qed.

(** A call that returns got past creation and write. *)
Lemma returned_is_settled env code options h r :
  (executeCode env code options h).1 = Returned r -> r = settled env options.
Proof.
  destruct (fs_mkdir_error env (workspaceOf env)) as [e|] eqn:Hm.
  { rewrite (executeCode_mkdir_fails _ _ _ _ _ Hm). discriminate. }
  destruct (fs_writeFile_error env (sourcePathOf env options) code) as [e|] eqn:Hw.
  { rewrite (executeCode_write_fails _ _ _ _ _ Hm Hw). discriminate. }
  rewrite (executeCode_run _ _ _ _ Hm Hw). intros [= <-]. reflexivity.
Qed.

(** X3. In a returned result the exit code is [0] exactly when the
    launched command's promise resolved; a rejection always yields a
    non-zero (and never a null) exit code, even when the error carries
    code [0], no code, or an empty code. *)
Theorem exit_code_zero_iff_resolved env code options h r :
  (executeCode env code options h).1 = Returned r ->
  exitCode r ≠ CNull ∧
  (exitCode r = CNum 0 <->
   ∃ out err,
     child_process_exec env (commandOf env options) (timeoutOf options) = Resolved out err).
Proof.
  intros Hr. apply returned_is_settled in Hr. subst r. unfold settled.
  destruct (child_process_exec env (commandOf env options) (timeoutOf options))
    as [out err|e].
  - cbn [exitCode]. split; [discriminate|]. split; [eauto|reflexivity].
  - unfold failureResult. cbn [exitCode].
    destruct (code_or_1_nonzero (e_code e)) as [H0 Hn].
    split; [exact Hn|]. split; [contradiction|]. intros (out & err & [=]).
Qed.

Lemma exit_code_zero_iff_resolved_witness :
  (executeCode env_sleeper "while True: pass" py pristine).1 =
    Returned {| stdout := "tick"; stderr := "late"; exitCode := CNum 1;
                executionTime := 1000 |} ∧
  CNum 1 ≠ CNull.
Proof.
  split; [reflexivity|].
  exact (proj1 (exit_code_zero_iff_resolved env_sleeper "while True: pass" py pristine _
                  eq_refl)).
Defined.

Lemma timeoutOf_nonzero options : timeoutOf options ≠ 0.
Proof.
  unfold timeoutOf, or_elseZ. destruct (timeout options) as [n|]; [|discriminate].
  destruct (decide (n = 0)); [discriminate|assumption].
Qed.

(** The events one call adds on a host with no history. *)
Lemma events_of_call env code options :
  let evs := events (executeCode env code options pristine).2 in
  ∀ c t, Exec c t ∈ evs -> c = commandOf env options ∧ t = timeoutOf options.
Proof.
  cbv zeta. intros c t.
  destruct (fs_mkdir_error env (workspaceOf env)) as [e|] eqn:Hm.
  { rewrite (executeCode_mkdir_fails _ _ _ _ _ Hm). cbn [snd emit events pristine app].
    intros H. apply list_elem_of_singleton in H. discriminate. }
  destruct (fs_writeFile_error env (sourcePathOf env options) code) as [e|] eqn:Hw.
  { rewrite (executeCode_write_fails _ _ _ _ _ Hm Hw).
    cbn [snd emit putFile addDir events pristine app].
    intros H. apply elem_of_cons in H as [H|H]; [discriminate|].
    apply list_elem_of_singleton in H. discriminate. }
  rewrite (executeCode_run _ _ _ _ Hm Hw). cbn [snd]. unfold cleaned, beforeCleanup.
  destruct (fs_rm_error env (workspaceOf env));
    cbn [snd emit putFile addDir removeTree events pristine app];
    intros H; repeat (apply elem_of_cons in H as [H|H]; [try discriminate|]);
    try (apply elem_of_nil in H; contradiction);
    injection H as -> ->; split; reflexivity.
Qed.

(** X4. For a timeout that is a whole number of milliseconds, the
    deadline given to [exec] is never [0] (Node's "no deadline"): an
    omitted timeout and a timeout of [0] both become 10000 ms, every other
    whole number is passed through. *)
Theorem launch_deadline_never_zero env code options c t :
  Exec c t ∈ events (executeCode env code options pristine).2 ->
  t ≠ 0 ∧
  (timeout options = None ∨ timeout options = Some 0 -> t = 10000) ∧
  (∀ n, timeout options = Some n -> n ≠ 0 -> t = n).
Proof.
  intros H. destruct (events_of_call env code options c t H) as [_ ->].
  split; [apply timeoutOf_nonzero|]. unfold timeoutOf, or_elseZ. split.
  - intros [-> | ->]; reflexivity.
  - intros n -> Hn. destruct (decide (n = 0)); [contradiction|reflexivity].
Qed.

Lemma launch_deadline_never_zero_witness :
  Exec (commandOf env_exit2 py) 1000 ∈ events (executeCode env_exit2 "print(1)" py pristine).2 ∧
  1000 ≠ 0.
Proof.
  assert (Exec (commandOf env_exit2 py) 1000
            ∈ events (executeCode env_exit2 "print(1)" py pristine).2) as Hin.
  { rewrite executeCode_run by reflexivity. cbn [snd]. unfold cleaned, beforeCleanup.
    cbn [env_exit2 quiet fs_rm_error emit putFile addDir removeTree events pristine app].
    do 2 apply list_elem_of_further. apply list_elem_of_here. }
  split; [exact Hin|].
  exact (proj1 (launch_deadline_never_zero env_exit2 "print(1)" py _ _ Hin)).
Defined.

(** X6. With workspace and source in place, the text passed to the shell
    ends in a space and the base name [code.<ext>] of the file that was
    just written to [<workspace>/code.<ext>], for every language
    identifier.  (What the shell makes of the text is not stated.) *)
Theorem launched_text_ends_in_written_name env code options h :
  fs_mkdir_error env (workspaceOf env) = None ->
  fs_writeFile_error env (sourcePathOf env options) code = None ->
  ∃ pre log,
    events (executeCode env code options h).2 =
      events h ++
      [ Mkdir (workspaceOf env);
        WriteFile (Path.join (workspaceOf env) (codeFilename (language options))) code;
        Exec (pre +:+ " " +:+ codeFilename (language options)) (timeoutOf options);
        Rm (workspaceOf env) ] ++ log.
Proof.
  intros Hm Hw. rewrite (executeCode_run _ _ _ _ Hm Hw). cbn [snd].
  exists ("docker run --rm " +:+
          (if truthy (networkDisabled options) then "--network=none" else "") +:+
          " -m " +:+ or_else (memoryLimit options) DEFAULT_MEMORY +:+
          " -v " +:+ workspaceOf env +:+ ":/code -w /code " +:+
          or_else (get LANGUAGE_IMAGES (language options)) "alpine:latest" +:+ " " +:+
          or_else (get EXECUTION_COMMANDS (language options)) "sh").
  assert (commandOf env options =
          ("docker run --rm " +:+
           (if truthy (networkDisabled options) then "--network=none" else "") +:+
           " -m " +:+ or_else (memoryLimit options) DEFAULT_MEMORY +:+
           " -v " +:+ workspaceOf env +:+ ":/code -w /code " +:+
           or_else (get LANGUAGE_IMAGES (language options)) "alpine:latest" +:+ " " +:+
           or_else (get EXECUTION_COMMANDS (language options)) "sh") +:+
          " " +:+ codeFilename (language options)) as <-.
  { unfold commandOf, getDockerCommand. rewrite basename_sourcePath, !append_assoc.
    reflexivity. }
  unfold cleaned, beforeCleanup. fold (sourcePathOf env options).
  destruct (fs_rm_error env (workspaceOf env)) as [e|].
  - eexists [_]. cbn [emit removeTree addDir putFile events].
    rewrite <- !app_assoc. reflexivity.
  - exists []. cbn [emit removeTree addDir putFile events].
    rewrite <- !app_assoc. reflexivity.
Qed.

Lemma launched_text_ends_in_written_name_witness :
  ∃ pre log,
    events (executeCode env_exit2 "print(1)" py pristine).2 =
      [ Mkdir (workspaceOf env_exit2);
        WriteFile (Path.join (workspaceOf env_exit2) "code.py") "print(1)";
        Exec (pre +:+ " " +:+ "code.py") 1000;
        Rm (workspaceOf env_exit2) ] ++ log.
Proof.
  exact (launched_text_ends_in_written_name env_exit2 "print(1)" py pristine eq_refl eq_refl).
Defined.

(** X7. The availability probe never throws: it returns [true] exactly
    when [docker --version] resolves, and when it returns [false] the last
    thing it did was to log the error's message to the console. *)
Theorem probe_never_throws env h :
  ∃ available,
    (checkDockerAvailability env h).1 = Returned available ∧
    (available = true <->
     ∃ out err, child_process_exec env "docker --version" 0 = Resolved out err) ∧
    (available = false ->
     ∃ e, child_process_exec env "docker --version" 0 = Rejected e ∧
          List.last (events (checkDockerAvailability env h).2) (Mkdir "") =
            ConsoleError ("Docker is not available: " +:+ e_message e)).
Proof.
  unfold checkDockerAvailability, try_catch, bind, execPromise, console_error, ret.
  destruct (child_process_exec env "docker --version" 0) as [out err|e].
  - exists true. cbn [fst snd]. repeat split; eauto. discriminate.
  - exists false. cbn [fst snd emit events]. repeat split; try discriminate.
    + intros (out & err & [=]).
    + intros _. exists e. split; [reflexivity|]. apply List.last_last.
Qed.

Lemma probe_never_throws_witness :
  ∃ available,
    (checkDockerAvailability env_no_docker pristine).1 = Returned available ∧
    available = false.
Proof.
  destruct (probe_never_throws env_no_docker pristine) as (available & Hr & Hiff & _).
  exists available. split; [exact Hr|].
  destruct available; [|reflexivity].
  destruct (proj1 Hiff eq_refl) as (out & err & [=]).
Defined.

(** Where every value of a table is non-empty and differs from the
    fallback, [table[k] || fallback] is the fallback only when the read
    found nothing. *)
Lemma or_else_get_is_fallback table d :
  forallb (fun v => negb (bool_decide (v = "")) && negb (bool_decide (v = d)))
    (map snd table) = true ->
  forallb (fun v => negb (bool_decide (v = "")) && negb (bool_decide (v = d)))
    (map snd Object_prototype) = true ->
  ∀ k, or_else (get table k) d = d <-> get table k = None.
Proof.
  intros Ht Hp k.
  assert (∀ v, get table k = Some v -> v ≠ "" ∧ v ≠ d) as Hv.
  { intros v. unfold get. destruct (assoc k table) as [w|] eqn:E1.
    - intros [= <-]. pose proof (proj1 (forallb_forall _ _) Ht _ (assoc_In _ _ _ E1)) as H.
      apply andb_true_iff in H as [H1 H2]. apply negb_true_iff in H1, H2.
      apply bool_decide_eq_false in H1, H2. tauto.
    - intros E2. pose proof (proj1 (forallb_forall _ _) Hp _ (assoc_In _ _ _ E2)) as H.
      apply andb_true_iff in H as [H1 H2]. apply negb_true_iff in H1, H2.
      apply bool_decide_eq_false in H1, H2. tauto. }
  unfold or_else. destruct (get table k) as [v|]; [|tauto].
  destruct (Hv v eq_refl) as [H1 H2]. destruct (decide (v = "")); [contradiction|].
  split; [contradiction|discriminate].
Qed.

Lemma get_same_keys k (l1 l2 : list (string * string)) :
  map fst l1 = map fst l2 -> get l1 k = None -> get l2 k = None.
Proof.
  intros Hk. unfold get. destruct (assoc k l1) eqn:E; [discriminate|].
  rewrite (assoc_same_keys k l1 l2 Hk E). trivial.
Qed.

(** X8. The three language tables are read consistently: for every
    language identifier the image, the file extension and the run command
    are either all three the generic ones ([alpine:latest], [txt], [sh])
    or none of them is. *)
Theorem language_profile_all_or_nothing language :
  (or_else (get LANGUAGE_IMAGES language) "alpine:latest" = "alpine:latest" <->
   or_else (get LANGUAGE_EXTENSIONS language) "txt" = "txt") ∧
  (or_else (get LANGUAGE_EXTENSIONS language) "txt" = "txt" <->
   or_else (get EXECUTION_COMMANDS language) "sh" = "sh").
Proof.
  rewrite (or_else_get_is_fallback LANGUAGE_IMAGES "alpine:latest" eq_refl eq_refl).
  rewrite (or_else_get_is_fallback LANGUAGE_EXTENSIONS "txt" eq_refl eq_refl).
  rewrite (or_else_get_is_fallback EXECUTION_COMMANDS "sh" eq_refl eq_refl).
  split; split; apply get_same_keys; reflexivity.
Qed.

End executor_results.

(** * Further properties of the collaboration registry *)

Section registry_handlers.
Import WebSocketService.

Ltac reads := cbn [users rooms roomHistory roomMessages stateOf fst].

Lemma roomUsers_is_Some us ms :
  is_Some (roomUsers us ms) <-> ∀ i, i ∈ ms -> is_Some (us !! i).
Proof.
  unfold roomUsers. rewrite mapM_is_Some, Forall_forall. split.
  - intros H i Hi. apply elem_of_elements in Hi. specialize (H i Hi).
    cbn in H. apply fmap_is_Some in H. exact H.
  - intros H i Hi. apply elem_of_elements in Hi. cbn. apply fmap_is_Some. auto.
Qed.

(** The tables [handleJoin] leaves, whether or not it runs to its end. *)
Lemma handleJoin_state st s u r :
  let st' := stateOf (handleJoin st s u r) in
  users st' = <[s := {| id := s; username := u; room := r |}]> (users st) ∧
  rooms st' = <[r := {[s]} ∪ default ∅ (rooms st !! r)]> (rooms st) ∧
  roomHistory st' =
    match rooms st !! r with
    | Some _ => roomHistory st
    | None => <[r := []]> (roomHistory st)
    end ∧
  roomMessages st' =
    match rooms st !! r with
    | Some _ => roomMessages st
    | None => <[r := []]> (roomMessages st)
    end.
Proof.
  cbv zeta. unfold handleJoin.
  destruct (rooms st !! r) as [ms|] eqn:Hr; reads.
  - rewrite Hr. destruct (roomUsers _ _); reads; repeat split; reflexivity.
  - rewrite lookup_insert_eq.
    destruct (roomUsers _ _); reads; rewrite insert_insert_eq; repeat split; reflexivity.
Qed.

Lemma handleJoin_done_iff st s u r :
  (∃ st', handleJoin st s u r = Done st') <->
  ∀ i, i ∈ default ∅ (rooms st !! r) -> i ≠ s -> is_Some (users st !! i).
Proof.
  assert (∀ ms, is_Some (roomUsers (<[s := {| id := s; username := u; room := r |}]> (users st))
                           ({[s]} ∪ ms)) <->
                ∀ i, i ∈ ms -> i ≠ s -> is_Some (users st !! i)) as Hkey.
  { intros ms. rewrite roomUsers_is_Some. split.
    - intros H i Hi Hne. specialize (H i (elem_of_union_r _ _ _ Hi)).
      rewrite lookup_insert_ne in H by congruence. exact H.
    - intros H i Hi. destruct (decide (i = s)) as [->|Hne].
      + rewrite lookup_insert_eq. eauto.
      + rewrite lookup_insert_ne by congruence. apply H; [|exact Hne].
        apply elem_of_union in Hi as [Hi|Hi]; [|exact Hi].
        apply elem_of_singleton in Hi. contradiction. }
  unfold handleJoin.
  destruct (rooms st !! r) as [ms|] eqn:Hr; reads.
  - rewrite Hr. cbn [default]. rewrite <- Hkey.
    destruct (roomUsers _ _); split.
    + eauto.
    + eauto.
    + intros [st' [=]].
    + intros [x [=]].
  - rewrite lookup_insert_eq. cbn [default]. rewrite <- Hkey.
    destruct (roomUsers _ _); split.
    + eauto.
    + eauto.
    + intros [st' [=]].
    + intros [x [=]].
Qed.

(** X9. [handleJoin] runs to its end exactly when every other identifier
    in the room's member set still has a user entry.  Otherwise the
    [roomUsers] computation throws; by then the joining socket is already
    recorded in [users] and in the room. *)
Theorem join_completes_iff_members_tracked st s u r :
  ((∃ st', handleJoin st s u r = Done st') <->
   ∀ i, i ∈ default ∅ (rooms st !! r) -> i ≠ s -> is_Some (users st !! i)) ∧
  users (stateOf (handleJoin st s u r)) !! s =
    Some {| id := s; username := u; room := r |} ∧
  ∃ members, rooms (stateOf (handleJoin st s u r)) !! r = Some members ∧ s ∈ members.
Proof.
  destruct (handleJoin_state st s u r) as (Hu & Hr & _). cbv zeta in *.
  split; [apply handleJoin_done_iff|]. split.
  - rewrite Hu. apply lookup_insert_eq.
  - rewrite Hr, lookup_insert_eq. eexists. split; [reflexivity|].
    apply elem_of_union_l, elem_of_singleton. reflexivity.
Qed.

(** X10. Joining never takes anything away: every room keeps all its
    members (also the room the socket was in before, which it does not
    leave), and, where the three tables have the same keys, every room
    keeps its code history and its chat history unchanged. *)
Theorem join_only_adds st s u r :
  (∀ r' ms, rooms st !! r' = Some ms ->
     ∃ ms', rooms (stateOf (handleJoin st s u r)) !! r' = Some ms' ∧ ms ⊆ ms') ∧
  (keys_agree st ->
   ∀ r', is_Some (rooms st !! r') ->
     roomHistory (stateOf (handleJoin st s u r)) !! r' = roomHistory st !! r' ∧
     roomMessages (stateOf (handleJoin st s u r)) !! r' = roomMessages st !! r').
Proof.
  destruct (handleJoin_state st s u r) as (_ & Hr & Hh & Hm). cbv zeta in *.
  split.
  - intros r' ms Hms. rewrite Hr. destruct (decide (r = r')) as [->|Hne].
    + rewrite lookup_insert_eq, Hms. cbn [default]. eexists. split; [reflexivity|].
      apply union_subseteq_r.
    + rewrite lookup_insert_ne by assumption. eauto.
  - intros _ r' Hsome. rewrite Hh, Hm.
    destruct (rooms st !! r) eqn:E; [split; reflexivity|].
    assert (r ≠ r') as Hne by (intros ->; rewrite E in Hsome; destruct Hsome; discriminate).
    rewrite !lookup_insert_ne by assumption. split; reflexivity.
Qed.

Lemma join_only_adds_witness :
  roomMessages (stateOf (handleJoin two_in_lab "s3" "cy" "lab")) !! "lab"
    = roomMessages two_in_lab !! "lab".
Proof.
  destruct (join_only_adds two_in_lab "s3" "cy" "lab") as [_ H].
  refine (proj2 (H _ "lab" _)).
  - split; vm_compute; reflexivity.
  - vm_compute. eauto.
Defined.

(** X11. A socket that joins a room nobody is in, on a state whose three
    tables have the same keys, and then disconnects, leaves the service
    exactly as it was: the room and both its histories are removed
    again. *)
Theorem join_then_leave_restores st s u r :
  keys_agree st -> users st !! s = None -> rooms st !! r = None ->
  ∃ st1, handleJoin st s u r = Done st1 ∧ handleDisconnect st1 s = Done st.
Proof.
  intros [Hh Hm] Hs Hr.
  assert (roomHistory st !! r = None) as Hhr.
  { apply not_elem_of_dom. rewrite <- Hh. apply not_elem_of_dom. exact Hr. }
  assert (roomMessages st !! r = None) as Hmr.
  { apply not_elem_of_dom. rewrite <- Hm. apply not_elem_of_dom. exact Hr. }
  destruct (proj2 (handleJoin_done_iff st s u r)) as [st1 Hj].
  { rewrite Hr. cbn [default]. intros i Hi. apply elem_of_empty in Hi. contradiction. }
  exists st1. split; [exact Hj|].
  destruct (handleJoin_state st s u r) as (Hu1 & Hr1 & Hh1 & Hm1). cbv zeta in *.
  rewrite Hj in Hu1, Hr1, Hh1, Hm1. cbn [stateOf] in *. rewrite Hr in *. cbn [default] in *.
  unfold handleDisconnect. rewrite Hu1, lookup_insert_eq. cbn [room].
  rewrite Hr1, lookup_insert_eq.
  assert (({[s]} ∪ ∅) ∖ {[s]} = (∅ : gset string)) as ->.
  { apply set_eq. intros x. rewrite elem_of_difference, elem_of_union, elem_of_singleton,
      !elem_of_empty. tauto. }
  rewrite size_empty. destruct (decide (0%nat = 0%nat)); [|congruence].
  rewrite Hh1, Hm1, insert_insert_eq, !delete_insert_id by assumption.
  destruct st; reflexivity.
Qed.

Lemma join_then_leave_restores_witness :
  ∃ st1, handleJoin two_in_lab "s9" "zed" "attic" = Done st1 ∧
         handleDisconnect st1 "s9" = Done two_in_lab.
Proof.
  apply join_then_leave_restores.
  - split; vm_compute; reflexivity.
  - vm_compute. reflexivity.
  - vm_compute. reflexivity.
Defined.

(** X12. When a tracked socket disconnects and the handler runs to its
    end, the socket's user entry is gone and it is no longer a member of
    its room; the room, with both histories, is removed exactly when no
    other member is left, and otherwise keeps its other members and its
    histories. *)
Theorem disconnect_leaves_room st s usr ms st' :
  users st !! s = Some usr -> rooms st !! room usr = Some ms ->
  handleDisconnect st s = Done st' ->
  users st' = delete s (users st) ∧
  (ms ∖ {[s]} = ∅ ->
   rooms st' !! room usr = None ∧ roomHistory st' !! room usr = None ∧
   roomMessages st' !! room usr = None) ∧
  (ms ∖ {[s]} ≠ ∅ ->
   rooms st' !! room usr = Some (ms ∖ {[s]}) ∧
   roomHistory st' = roomHistory st ∧ roomMessages st' = roomMessages st).
Proof.
  intros Hs Hr. unfold handleDisconnect. rewrite Hs, Hr.
  destruct (decide (size (ms ∖ {[s]}) = 0%nat)) as [Hsz|Hsz].
  - intros [= <-]. reads. split; [reflexivity|]. split.
    + intros _. rewrite !lookup_delete_eq. repeat split.
    + intros Hne. apply size_empty_inv, leibniz_equiv in Hsz. contradiction.
  - destruct (roomUsers _ _); [|discriminate]. intros [= <-]. reads.
    split; [reflexivity|]. split.
    + intros He. rewrite He, size_empty in Hsz. contradiction.
    + intros _. rewrite lookup_insert_eq. repeat split.
Qed.

Lemma disconnect_leaves_room_witness :
  ∃ st', handleDisconnect two_in_lab "s1" = Done st' ∧
         rooms st' !! "lab" = Some ({[ "s1"; "s2" ]} ∖ {[ "s1" ]}).
Proof.
  eexists. split; [vm_compute; reflexivity|].
  refine (proj1 (proj2 (proj2
    (disconnect_leaves_room two_in_lab "s1" {| id := "s1"; username := "ann"; room := "lab" |}
       {[ "s1"; "s2" ]} _ _ _ _)) _)).
  - vm_compute. reflexivity.
  - vm_compute. reflexivity.
  - vm_compute. reflexivity.
  - intros E. assert ("s2" ∈ ({[ "s1"; "s2" ]} ∖ {[ "s1" ]} : gset string)) as Hin.
    { apply elem_of_difference. split.
      - apply elem_of_union_r, elem_of_singleton. reflexivity.
      - intros H%elem_of_singleton. discriminate. }
    rewrite E in Hin. apply elem_of_empty in Hin. exact Hin.
Defined.

(** X13. When a tracked socket disconnects from a room in which another
    identifier without a user entry remains, the handler is left by the
    [TypeError]: the socket is taken out of the room, but its entry in
    [users] stays. *)
Theorem disconnect_crashes_on_stale_member st s usr ms i :
  users st !! s = Some usr -> rooms st !! room usr = Some ms ->
  i ∈ ms -> i ≠ s -> users st !! i = None ->
  handleDisconnect st s =
    Crashed {| users := users st;
               rooms := <[room usr := ms ∖ {[s]}]> (rooms st);
               roomHistory := roomHistory st;
               roomMessages := roomMessages st |}.
Proof.
  intros Hs Hr Hi Hne Hnone. unfold handleDisconnect. rewrite Hs, Hr.
  assert (i ∈ ms ∖ {[s]}) as Hin.
  { apply elem_of_difference. split; [exact Hi|]. rewrite elem_of_singleton. exact Hne. }
  destruct (decide (size (ms ∖ {[s]}) = 0%nat)) as [Hsz|Hsz].
  { apply size_empty_inv in Hsz. apply (proj1 (elem_of_equiv_empty _) Hsz) in Hin.
    contradiction. }
  destruct (roomUsers (users st) (ms ∖ {[s]})) as [l|] eqn:E; [|reflexivity].
  assert (is_Some (users st !! i)) as [x Hx].
  { apply (proj1 (roomUsers_is_Some (users st) (ms ∖ {[s]}))); [eauto|exact Hin]. }
  congruence.
Qed.

Lemma disconnect_crashes_on_stale_member_witness :
  ∃ st', handleDisconnect lab_with_ghost "s2" = Crashed st' ∧
         users st' = users lab_with_ghost.
Proof.
  eexists. split.
  - apply (disconnect_crashes_on_stale_member lab_with_ghost "s2"
             {| id := "s2"; username := "bob"; room := "lab" |} {[ "s1"; "s2" ]} "s1").
    + vm_compute. reflexivity.
    + vm_compute. reflexivity.
    + apply elem_of_union_l, elem_of_singleton. reflexivity.
    + discriminate.
    + vm_compute. reflexivity.
  - reflexivity.
Defined.

(** X14. On a state that satisfies the registry invariant, a code change
    from a tracked socket appends exactly one entry (the sender's user
    name, the change, the time) to the end of the history of the sender's
    room, which exists; nothing else changes. *)
Theorem code_change_appends st s usr c now :
  registry_inv st -> users st !! s = Some usr ->
  ∃ history,
    roomHistory st !! room usr = Some history ∧
    handleCodeChange st s c now =
      Done {| users := users st; rooms := rooms st;
              roomHistory :=
                <[room usr := history ++
                    [{| c_user := username usr; c_change := c; c_timestamp := now |}]]>
                  (roomHistory st);
              roomMessages := roomMessages st |}.
Proof.
  intros [[Hh _] Hu] Hs. destruct (Hu _ _ Hs) as (ms & Hr & _).
  assert (is_Some (roomHistory st !! room usr)) as [history Hhist].
  { apply elem_of_dom. rewrite <- Hh. apply elem_of_dom. eauto. }
  exists history. split; [exact Hhist|].
  unfold handleCodeChange. rewrite Hs, Hhist. reflexivity.
Qed.

Lemma code_change_appends_witness :
  ∃ history,
    roomHistory two_in_lab !! "lab" = Some history ∧
    handleCodeChange two_in_lab "s2" "y = 2" 7 =
      Done {| users := users two_in_lab; rooms := rooms two_in_lab;
              roomHistory :=
                <["lab" := history ++
                    [{| c_user := "bob"; c_change := "y = 2"; c_timestamp := 7 |}]]>
                  (roomHistory two_in_lab);
              roomMessages := roomMessages two_in_lab |}.
Proof.
  apply (code_change_appends two_in_lab "s2"
           {| id := "s2"; username := "bob"; room := "lab" |} "y = 2" 7).
  - destruct (reachable_inv (run initial [ Join "s1" "ann" "lab"; Join "s2" "bob" "lab";
                                           SendMessage "s1" "hi" 5 ])) as [_ H].
    + apply reachable_run; [apply reachable_initial|]. vm_compute. repeat split.
    + apply H. vm_compute. reflexivity.
  - vm_compute. reflexivity.
Defined.

(** X15. The same for chat: on a state that satisfies the registry
    invariant, a message from a tracked socket appends exactly one entry
    to the end of the chat history of the sender's room; nothing else
    changes. *)
Theorem message_appends st s usr text now :
  registry_inv st -> users st !! s = Some usr ->
  ∃ messages,
    roomMessages st !! room usr = Some messages ∧
    handleMessage st s text now =
      Done {| users := users st; rooms := rooms st;
              roomHistory := roomHistory st;
              roomMessages :=
                <[room usr := messages ++
                    [{| m_user := username usr; m_text := text; m_timestamp := now |}]]>
                  (roomMessages st) |}.
Proof.
  intros [[_ Hm] Hu] Hs. destruct (Hu _ _ Hs) as (ms & Hr & _).
  assert (is_Some (roomMessages st !! room usr)) as [messages Hmsg].
  { apply elem_of_dom. rewrite <- Hm. apply elem_of_dom. eauto. }
  exists messages. split; [exact Hmsg|].
  unfold handleMessage. rewrite Hs, Hmsg. reflexivity.
Qed.

Lemma message_appends_witness :
  ∃ messages,
    roomMessages two_in_lab !! "lab" = Some messages ∧
    handleMessage two_in_lab "s2" "hello" 9 =
      Done {| users := users two_in_lab; rooms := rooms two_in_lab;
              roomHistory := roomHistory two_in_lab;
              roomMessages :=
                <["lab" := messages ++
                    [{| m_user := "bob"; m_text := "hello"; m_timestamp := 9 |}]]>
                  (roomMessages two_in_lab) |}.
Proof.
  apply (message_appends two_in_lab "s2"
           {| id := "s2"; username := "bob"; room := "lab" |} "hello" 9).
  - destruct (reachable_inv (run initial [ Join "s1" "ann" "lab"; Join "s2" "bob" "lab";
                                           SendMessage "s1" "hi" 5 ])) as [_ H].
    + apply reachable_run; [apply reachable_initial|]. vm_compute. repeat split.
    + apply H. vm_compute. reflexivity.
  - vm_compute. reflexivity.
Defined.

(** X16. A socket that has not joined cannot change anything: its code
    changes, messages, cursor updates and its disconnect all leave every
    table as it was. *)
Theorem unjoined_socket_is_ignored st s :
  users st !! s = None ->
  (∀ c now, step st (CodeChanged s c now) = Done st) ∧
  (∀ t now, step st (SendMessage s t now) = Done st) ∧
  (∀ p, step st (CursorUpdate s p) = Done st) ∧
  step st (Disconnect s) = Done st.
Proof.
  intros Hs. cbn [step].
  unfold handleCodeChange, handleMessage, handleCursorUpdate, handleDisconnect.
  rewrite Hs. repeat split.
Qed.

Lemma unjoined_socket_is_ignored_witness :
  step two_in_lab (SendMessage "s7" "spam" 11) = Done two_in_lab.
Proof.
  refine (proj1 (proj2 (unjoined_socket_is_ignored two_in_lab "s7" _)) "spam" 11).
  vm_compute. reflexivity.
Defined.

(** X17. The user count goes up by one when a socket joins for the first
    time and stays the same when a socket that is already tracked joins a
    room again; it goes down by one when a tracked socket's disconnect
    runs to its end. *)
Theorem user_count_tracks_sockets st s :
  (∀ u r, users st !! s = None ->
     getActiveUserCount (stateOf (handleJoin st s u r)) = S (getActiveUserCount st)) ∧
  (∀ u r, is_Some (users st !! s) ->
     getActiveUserCount (stateOf (handleJoin st s u r)) = getActiveUserCount st) ∧
  (∀ st', is_Some (users st !! s) -> handleDisconnect st s = Done st' ->
     S (getActiveUserCount st') = getActiveUserCount st).
Proof.
  unfold getActiveUserCount. split; [|split].
  - intros u r Hs. destruct (handleJoin_state st s u r) as [-> _].
    apply map_size_insert_None, Hs.
  - intros u r Hs. destruct (handleJoin_state st s u r) as [-> _].
    apply map_size_insert_Some, Hs.
  - intros st' [usr Hs] Hd.
    assert (users st' = delete s (users st)) as ->.
    { revert Hd. unfold handleDisconnect. rewrite Hs.
      destruct (rooms st !! room usr) as [ms|]; [|intros [= <-]; reflexivity].
      destruct (decide (size (ms ∖ {[s]}) = 0%nat)); [intros [= <-]; reflexivity|].
      destruct (roomUsers _ _); [intros [= <-]; reflexivity|discriminate]. }
    rewrite map_size_delete, Hs.
    assert (size (users st) ≠ 0%nat) as Hne.
    { intros H0. apply map_size_empty_inv in H0. rewrite H0, lookup_empty in Hs.
      discriminate. }
    destruct (size (users st)); [contradiction|reflexivity].
Qed.

Lemma user_count_tracks_sockets_witness :
  getActiveUserCount (stateOf (handleJoin two_in_lab "s3" "cy" "lab")) =
    S (getActiveUserCount two_in_lab).
Proof.
  refine (proj1 (user_count_tracks_sockets two_in_lab "s3") "cy" "lab" _).
  vm_compute. reflexivity.
Defined.

(** X18. [createRoom] returns the identifier it drew and leaves a room
    under it with no members, no code history and no chat history; every
    other room and all users are as before.  The room count goes up by one
    when the identifier was not in use, and stays the same otherwise (the
    room that had the identifier is emptied). *)
Theorem createRoom_makes_empty_room st uuid :
  (createRoom st uuid).2 = uuid ∧
  rooms (createRoom st uuid).1 !! uuid = Some ∅ ∧
  roomHistory (createRoom st uuid).1 !! uuid = Some [] ∧
  roomMessages (createRoom st uuid).1 !! uuid = Some [] ∧
  users (createRoom st uuid).1 = users st ∧
  (∀ r, r ≠ uuid ->
     rooms (createRoom st uuid).1 !! r = rooms st !! r ∧
     roomHistory (createRoom st uuid).1 !! r = roomHistory st !! r ∧
     roomMessages (createRoom st uuid).1 !! r = roomMessages st !! r) ∧
  (rooms st !! uuid = None ->
   getActiveRoomCount (createRoom st uuid).1 = S (getActiveRoomCount st)) ∧
  (is_Some (rooms st !! uuid) ->
   getActiveRoomCount (createRoom st uuid).1 = getActiveRoomCount st).
Proof.
  unfold createRoom, getActiveRoomCount. cbn [fst snd]. reads.
  rewrite !lookup_insert_eq. repeat split.
  - rewrite lookup_insert_ne by congruence. reflexivity.
  - rewrite lookup_insert_ne by congruence. reflexivity.
  - rewrite lookup_insert_ne by congruence. reflexivity.
  - apply map_size_insert_None.
  - apply map_size_insert_Some.
Qed.

Lemma createRoom_makes_empty_room_witness :
  getActiveRoomCount (createRoom two_in_lab "7c9e6679").1 = S (getActiveRoomCount two_in_lab).
Proof.
  destruct (createRoom_makes_empty_room two_in_lab "7c9e6679")
    as (_ & _ & _ & _ & _ & _ & Hfresh & _).
  apply Hfresh. vm_compute. reflexivity.
Defined.

(** The user entries a handler leaves carry their own key as [id] if those
    before it did. *)
Lemma step_keeps_ids st ev :
  (∀ sid usr, users st !! sid = Some usr -> id usr = sid) ->
  ∀ sid usr, users (stateOf (step st ev)) !! sid = Some usr -> id usr = sid.
Proof.
  intros Hid sid usr. destruct ev; cbn [step].
  - destruct (handleJoin_state st socketId username0 room0) as [-> _].
    destruct (decide (socketId = sid)) as [->|Hne].
    + rewrite lookup_insert_eq. intros [= <-]. reflexivity.
    + rewrite lookup_insert_ne by assumption. apply Hid.
  - unfold handleCodeChange. destruct (users st !! socketId); apply Hid.
  - unfold handleMessage. destruct (users st !! socketId); apply Hid.
  - unfold handleCursorUpdate. destruct (users st !! socketId); apply Hid.
  - unfold handleDisconnect. destruct (users st !! socketId) as [u0|]; [|apply Hid].
    destruct (rooms st !! room u0) as [ms|].
    + destruct (decide (size (ms ∖ {[socketId]}) = 0%nat)).
      * reads. intros [_ H]%lookup_delete_Some. apply Hid, H.
      * destruct (roomUsers _ _); reads; [|apply Hid].
        intros [_ H]%lookup_delete_Some. apply Hid, H.
    + reads. intros [_ H]%lookup_delete_Some. apply Hid, H.
  - apply Hid.
Qed.

Lemma reachable_keeps_ids o :
  reachable o -> ∀ sid usr, users (stateOf o) !! sid = Some usr -> id usr = sid.
Proof.
  induction 1 as [|st ev Hreach IH Hadm].
  - intros sid usr. unfold initial. reads. rewrite lookup_empty. discriminate.
  - apply step_keeps_ids. exact IH.
Qed.

(** X19. In every state the service reaches with all handlers run to
    their end, each entry of [users] is stored under its own [id], the
    room it records exists, and the socket is a member of that room. *)
Theorem tracked_users_are_members st :
  reachable (Done st) ->
  ∀ sid usr, users st !! sid = Some usr ->
    id usr = sid ∧ ∃ members, rooms st !! room usr = Some members ∧ sid ∈ members.
Proof.
  intros Hreach sid usr Hs. split.
  - exact (reachable_keeps_ids (Done st) Hreach sid usr Hs).
  - destruct (reachable_inv (Done st) Hreach) as [_ H].
    destruct (H st eq_refl) as [_ Hu]. exact (Hu sid usr Hs).
Qed.

Lemma tracked_users_are_members_witness :
  ∃ members, rooms two_in_lab !! "lab" = Some members ∧ "s2" ∈ members.
Proof.
  refine (proj2 (tracked_users_are_members two_in_lab _ "s2"
                   {| id := "s2"; username := "bob"; room := "lab" |} _)).
  - apply (reachable_run initial [ Join "s1" "ann" "lab"; Join "s2" "bob" "lab";
                                   SendMessage "s1" "hi" 5 ]);
      [apply reachable_initial|]. vm_compute. repeat split.
  - vm_compute. reflexivity.
Defined.

End registry_handlers.
